(** * World music events: normalisation, pagination, de-duplication, country
      filter and CSV output of [world_music_events.py]

    The script reads pages of events from a ticketing API, flattens every
    event to a twelve-column row, merges a global and a regional pass by
    event identifier, filters by country label and writes a CSV file.

    The embedding follows the Python source function by function.  Values
    decoded by [json.loads] are the inductive type [json]; a Python
    exception is the [Raise] outcome of the [result] monad; the network and
    the output file are threaded through an explicit [world]. *)

From Stdlib Require Import String Ascii List ZArith Bool Arith Lia.
From Stdlib Require Import DecimalString.
From Equations Require Import Equations.
Import ListNotations.

Set Warnings "-register-all".
Local Open Scope string_scope.
Local Open Scope list_scope.

(* ===================================================================== *)
(** ** Python values and exceptions *)
(* ===================================================================== *)

(** What [json.loads] returns.  Numbers are the integer ones (a JSON float
    is outside this model); strings are sequences of code points below 256;
    an object is its list of fields, read by first match. *)
Inductive json : Type :=
| JNull
| JBool (b : bool)
| JNum (n : Z)
| JStr (s : string)
| JArr (items : list json)
| JObj (fields : list (string * json)).

(** The exceptions the script can meet. *)
Inductive exn : Type :=
| AttributeError
| TypeError
| KeyError
| IndexError
| ValueError (msg : string)
| URLError (msg : string).

Inductive result (A : Type) : Type :=
| Ok (a : A)
| Raise (e : exn).
Arguments Ok {A} a.
Arguments Raise {A} e.

Definition bind {A B : Type} (c : result A) (k : A -> result B) : result B :=
  match c with
  | Ok a => k a
  | Raise e => Raise e
  end.

Declare Scope py_scope.
Delimit Scope py_scope with py.
Notation "x <- c ;; k" := (bind c (fun x => k))
  (at level 61, c at next level, right associativity) : py_scope.
Local Open Scope py_scope.

Fixpoint map_result {A B : Type} (f : A -> result B) (l : list A) : result (list B) :=
  match l with
  | [] => Ok []
  | a :: rest => b <- f a ;; bs <- map_result f rest ;; Ok (b :: bs)
  end.

(** [bool(x)]. *)
Definition truthy (x : json) : bool :=
  match x with
  | JNull => false
  | JBool b => b
  | JNum n => negb (n =? 0)%Z
  | JStr EmptyString => false
  | JStr (String _ _) => true
  | JArr [] => false
  | JArr (_ :: _) => true
  | JObj [] => false
  | JObj (_ :: _) => true
  end.

(** [x or d]. *)
Definition py_or (x d : json) : json := if truthy x then x else d.

(** Lookup in a dict with string keys; [None] when the key is missing. *)
Fixpoint dict_lookup {V : Type} (k : string) (d : list (string * V)) : option V :=
  match d with
  | [] => None
  | (k', v) :: rest => if String.eqb k k' then Some v else dict_lookup k rest
  end.

(** [d.get(k)] on a dict. *)
Definition dict_get (d : list (string * json)) (k : string) : json :=
  match dict_lookup k d with
  | Some v => v
  | None => JNull
  end.

(** [x.get(k)]: only a dict has the method. *)
Definition py_get (x : json) (k : string) : result json :=
  match x with
  | JObj d => Ok (dict_get d k)
  | _ => Raise AttributeError
  end.

(** [x[0]]. *)
Definition py_first (x : json) : result json :=
  match x with
  | JArr (a :: _) => Ok a
  | JArr [] => Raise IndexError
  | JStr (String c _) => Ok (JStr (String c EmptyString))
  | JStr EmptyString => Raise IndexError
  | JObj _ => Raise KeyError
  | JNull | JBool _ | JNum _ => Raise TypeError
  end.

Fixpoint chars (s : string) : list json :=
  match s with
  | EmptyString => []
  | String c rest => JStr (String c EmptyString) :: chars rest
  end.

(** [for a in x]: the elements of a list, the characters of a string, the
    keys of a dict. *)
Definition py_iter (x : json) : result (list json) :=
  match x with
  | JArr l => Ok l
  | JStr s => Ok (chars s)
  | JObj d => Ok (map (fun kv => JStr (fst kv)) d)
  | JNull | JBool _ | JNum _ => Raise TypeError
  end.

(** Hashing: what a value is as a member of a set or a key of a dict.
    [True] and [1] are the same key, as are [False] and [0]; lists and dicts
    are unhashable. *)
Inductive pykey : Type :=
| KNone
| KInt (n : Z)
| KStr (s : string).

Definition py_hash (x : json) : result pykey :=
  match x with
  | JNull => Ok KNone
  | JBool b => Ok (KInt (if b then 1 else 0))
  | JNum n => Ok (KInt n)
  | JStr s => Ok (KStr s)
  | JArr _ | JObj _ => Raise TypeError
  end.

Definition pykey_eqb (a b : pykey) : bool :=
  match a, b with
  | KNone, KNone => true
  | KInt n, KInt m => (n =? m)%Z
  | KStr s, KStr t => String.eqb s t
  | _, _ => false
  end.

Definition key_mem (k : pykey) (s : list pykey) : bool := existsb (pykey_eqb k) s.

(** [sep.join(l)]: every element must be a [str]. *)
Fixpoint py_join (sep : string) (l : list json) : result string :=
  match l with
  | [] => Ok ""
  | JStr s :: [] => Ok s
  | JStr s :: rest => t <- py_join sep rest ;; Ok (s ++ sep ++ t)%string
  | _ :: _ => Raise TypeError
  end.

(* ===================================================================== *)
(** ** Record normaliser: [extract_artists] and [normalize_row] *)
(* ===================================================================== *)

Definition is_dict (x : json) : bool :=
  match x with JObj _ => true | _ => false end.

(** The guard of the comprehension:
    [isinstance(a, dict) and a.get("name")]. *)
Definition named_attraction (a : json) : bool :=
  match a with
  | JObj d => truthy (dict_get d "name")
  | _ => false
  end.

(** [atts]: [((e.get("_embedded") or {}).get("attractions")) or []]. *)
Definition attractions (e : json) : result json :=
  emb <- py_get e "_embedded" ;;
  atts <- py_get (py_or emb (JObj [])) "attractions" ;;
  Ok (py_or atts (JArr [])).

(** [names]: the list comprehension over [atts]. *)
Definition attraction_names (e : json) : result (list json) :=
  atts <- attractions e ;;
  items <- py_iter atts ;;
  map_result (fun a => py_get a "name") (filter named_attraction items).

(** The loop [for n in names: if n not in seen: seen.add(n); out.append(n)]. *)
Fixpoint first_seen_loop (names : list json) (seen : list pykey) (out : list json)
  : result (list json) :=
  match names with
  | [] => Ok out
  | n :: rest =>
      k <- py_hash n ;;
      if key_mem k seen then first_seen_loop rest seen out
      else first_seen_loop rest (k :: seen) (out ++ [n])
  end.

Definition extract_artists (e : json) : result (list json) :=
  names <- attraction_names e ;;
  first_seen_loop names [] [].

(** A normalised row is a Python dict: its fields in insertion order. *)
Definition row : Type := list (string * json).

(** [d[k] = v] on an insertion-ordered dict: an existing key keeps its
    place, a new key goes last. *)
Fixpoint dict_set {K V : Type} (eqb : K -> K -> bool) (k : K) (v : V) (d : list (K * V))
  : list (K * V) :=
  match d with
  | [] => [(k, v)]
  | (k', v') :: rest =>
      if eqb k k' then (k', v) :: rest else (k', v') :: dict_set eqb k v rest
  end.

(** A dict display [{k1: v1, ...}]. *)
Definition dict_display (items : list (string * json)) : row :=
  fold_left (fun d kv => dict_set String.eqb (fst kv) (snd kv) d) items [].

Definition normalize_row (e : json) : result row :=
  emb0 <- py_get e "_embedded" ;;
  let emb := py_or emb0 (JObj []) in
  venues0 <- py_get emb "venues" ;;
  let venues := py_or venues0 (JArr [JObj []]) in
  v <- (if truthy venues then py_first venues else Ok (JObj [])) ;;
  cls_list0 <- py_get e "classifications" ;;
  let cls_list := py_or cls_list0 (JArr [JObj []]) in
  cls <- (if truthy cls_list then py_first cls_list else Ok (JObj [])) ;;
  genre <- py_get cls "genre" ;;
  genre_name <- py_get (py_or genre (JObj [])) "name" ;;
  subgenre <- py_get cls "subGenre" ;;
  subgenre_name <- py_get (py_or subgenre (JObj [])) "name" ;;
  dates <- py_get e "dates" ;;
  start0 <- py_get (py_or dates (JObj [])) "start" ;;
  let start := py_or start0 (JObj []) in
  local_date <- py_get start "localDate" ;;
  local_time <- py_get start "localTime" ;;
  artists <- extract_artists e ;;
  let artist_primary := match artists with a :: _ => a | [] => JNull end in
  artists_joined <- match artists with
                    | _ :: _ => s <- py_join "; " artists ;; Ok (JStr s)
                    | [] => Ok JNull
                    end ;;
  event_id <- py_get e "id" ;;
  event_name <- py_get e "name" ;;
  city0 <- py_get v "city" ;;
  city <- py_get (py_or city0 (JObj [])) "name" ;;
  country0 <- py_get v "country" ;;
  country <- py_get (py_or country0 (JObj [])) "name" ;;
  venue_name <- py_get v "name" ;;
  url <- py_get e "url" ;;
  Ok (dict_display
        [ ("event_id", event_id);
          ("event_name", event_name);
          ("local_date", local_date);
          ("local_time", local_time);
          ("city", city);
          ("country", country);
          ("venue_name", venue_name);
          ("genre_name", genre_name);
          ("subgenre_name", subgenre_name);
          ("artist_primary", artist_primary);
          ("artists", artists_joined);
          ("url", url) ]).

(** The event of the specification's end-to-end example. *)
Definition example_event : json :=
  JObj [ ("id", JStr "E1");
         ("name", JStr "Show");
         ("_embedded",
           JObj [ ("venues",
                    JArr [ JObj [ ("name", JStr "Hall");
                                  ("city", JObj [("name", JStr "Tel Aviv")]);
                                  ("country", JObj [("name", JStr "Israel")]) ] ]);
                  ("attractions", JArr [ JObj [("name", JStr "Band A")] ]) ]);
         ("classifications", JArr [ JObj [ ("genre", JObj [("name", JStr "Rock")]) ] ]);
         ("dates",
           JObj [ ("start", JObj [ ("localDate", JStr "2025-11-01");
                                   ("localTime", JStr "20:00:00") ]) ]);
         ("url", JStr "http://x") ].

(* ===================================================================== *)
(** ** Strings: [str.lower], [str.strip], [str.split] *)
(* ===================================================================== *)

(** [c.lower()] for a code point below 256: A-Z and the accented capitals
    0xC0-0xDE, the multiplication sign 0xD7 apart. *)
Definition lower_char (c : ascii) : ascii :=
  let n := nat_of_ascii c in
  if (((65 <=? n) && (n <=? 90)) || ((192 <=? n) && (n <=? 222) && negb (n =? 215)))%nat
  then ascii_of_nat (n + 32)
  else c.

Fixpoint lower (s : string) : string :=
  match s with
  | EmptyString => EmptyString
  | String c rest => String (lower_char c) (lower rest)
  end.

(** [c.isspace()] for a code point below 256. *)
Definition is_space (c : ascii) : bool :=
  let n := nat_of_ascii c in
  (((9 <=? n) && (n <=? 13)) || ((28 <=? n) && (n <=? 32)) || (n =? 133) || (n =? 160))%nat.

Fixpoint lstrip (s : string) : string :=
  match s with
  | EmptyString => EmptyString
  | String c rest => if is_space c then lstrip rest else s
  end.

Fixpoint rstrip (s : string) : string :=
  match s with
  | EmptyString => EmptyString
  | String c rest =>
      match rstrip rest with
      | EmptyString => if is_space c then EmptyString else String c EmptyString
      | rest' => String c rest'
      end
  end.

(** [s.strip()]. *)
Definition strip (s : string) : string := rstrip (lstrip s).

(** [s.split(sep)] for a one-character separator, as the first field and
    the fields after it. *)
Fixpoint split_fields (sep : ascii) (s : string) : string * list string :=
  match s with
  | EmptyString => (EmptyString, [])
  | String c rest =>
      let (hd, tl) := split_fields sep rest in
      if Ascii.eqb c sep then (EmptyString, hd :: tl) else (String c hd, tl)
  end.

Definition split (sep : ascii) (s : string) : list string :=
  let (hd, tl) := split_fields sep s in hd :: tl.

Definition nonempty (s : string) : bool :=
  match s with EmptyString => false | String _ _ => true end.

(* ===================================================================== *)
(** ** Country labels and the country filter *)
(* ===================================================================== *)

Definition DEEP_PAGING_LIMIT : nat := 1000.

Definition DEFAULT_ALLOWED : list string :=
  ["Israel"; "United States Of America"; "Great Britain"; "Canada"].

Definition COUNTRY_NORMALIZE : list (string * string) :=
  [ ("uk", "Great Britain");
    ("united kingdom", "Great Britain");
    ("great britain", "Great Britain");
    ("usa", "United States Of America");
    ("united states", "United States Of America");
    ("united states of america", "United States Of America");
    ("israel", "Israel");
    ("ca", "Canada");
    ("canada", "Canada") ].

Definition _normalize_country_label (name : string) : string :=
  let key := lower (strip name) in
  match dict_lookup key COUNTRY_NORMALIZE with
  | Some label => label
  | None => name
  end.

Definition parse_list (arg_val : option string) (default_list : list string) : list string :=
  match arg_val with
  | None => default_list
  | Some val =>
      let items := map strip (filter (fun x => nonempty (strip x)) (split "," val)) in
      map _normalize_country_label items
  end.

(** [set((a or "").lower() for a in (l or []))]; [None] is an argument left
    at its default, or a [None] entry of the list. *)
Definition label_set (l : option (list (option string))) : list string :=
  map (fun a => lower (match a with Some s => s | None => EmptyString end))
      (match l with Some l' => l' | None => [] end).

Definition str_mem (s : string) (l : list string) : bool := existsb (String.eqb s) l.

Definition set_truthy (l : list string) : bool :=
  match l with [] => false | _ :: _ => true end.

(** [x.strip()]: only a [str] has the method here. *)
Definition py_strip (x : json) : result string :=
  match x with
  | JStr s => Ok (strip s)
  | _ => Raise AttributeError
  end.

(** The loop of [filter_by_countries]; [continue] is the recursive call
    that leaves [out] as it is. *)
Fixpoint filter_loop (allowed_set blocked_set : list string) (rows out : list row)
  : result (list row) :=
  match rows with
  | [] => Ok out
  | r :: rest =>
      c <- py_strip (py_or (dict_get r "country") (JStr "")) ;;
      let cl := lower c in
      if set_truthy allowed_set && negb (str_mem cl allowed_set)
      then filter_loop allowed_set blocked_set rest out
      else if set_truthy blocked_set && str_mem cl blocked_set
      then filter_loop allowed_set blocked_set rest out
      else filter_loop allowed_set blocked_set rest (out ++ [r])
  end.

Definition filter_by_countries (rows : list row)
    (allowed blocked : option (list (option string))) : result (list row) :=
  filter_loop (label_set allowed) (label_set blocked) rows [].

(* ===================================================================== *)
(** ** De-duplication by identifier (the loop of [main]) *)
(* ===================================================================== *)

(** [r[k]]. *)
Definition row_item (r : row) (k : string) : result json :=
  match dict_lookup k r with
  | Some v => Ok v
  | None => Raise KeyError
  end.

(** [for r in rows: combined[r["event_id"]] = r]. *)
Fixpoint combine_loop (rows : list row) (combined : list (pykey * row))
  : result (list (pykey * row)) :=
  match rows with
  | [] => Ok combined
  | r :: rest =>
      id <- row_item r "event_id" ;;
      k <- py_hash id ;;
      combine_loop rest (dict_set pykey_eqb k r combined)
  end.

(** [all_rows]: the values of [combined] after the loop over
    [world_rows + il_rows]. *)
Definition deduplicate (world_rows il_rows : list row) : result (list row) :=
  combined <- combine_loop (world_rows ++ il_rows) [] ;;
  Ok (map snd combined).

(* ===================================================================== *)
(** ** Dates: [strptime(s, "%Y-%m-%d").date()], [ensure_dates], [to_iso_range] *)
(* ===================================================================== *)

Record date : Type := mkdate { year : nat; month : nat; day : nat }.

Definition digit (c : ascii) : option nat :=
  let n := nat_of_ascii c in
  if ((48 <=? n) && (n <=? 57))%nat then Some (n - 48) else None.

(** [%Y]: four digits. *)
Definition year_field (s : string) : option nat :=
  match s with
  | String a (String b (String c (String d EmptyString))) =>
      match digit a, digit b, digit c, digit d with
      | Some a, Some b, Some c, Some d => Some (1000 * a + 100 * b + 10 * c + d)
      | _, _, _, _ => None
      end
  | _ => None
  end.

(** [%m]: [1[0-2]|0[1-9]|[1-9]]. *)
Definition month_field (s : string) : option nat :=
  match s with
  | String a EmptyString =>
      match digit a with
      | Some a => if (1 <=? a)%nat then Some a else None
      | None => None
      end
  | String a (String b EmptyString) =>
      match digit a, digit b with
      | Some 1, Some b => if (b <=? 2)%nat then Some (10 + b) else None
      | Some 0, Some b => if (1 <=? b)%nat then Some b else None
      | _, _ => None
      end
  | _ => None
  end.

(** [%d]: [3[01]|[12]\d|0[1-9]|[1-9]| [1-9]]. *)
Definition day_field (s : string) : option nat :=
  match s with
  | String a EmptyString =>
      match digit a with
      | Some a => if (1 <=? a)%nat then Some a else None
      | None => None
      end
  | String a (String b EmptyString) =>
      match digit a, digit b with
      | Some 3, Some b => if (b <=? 1)%nat then Some (30 + b) else None
      | Some 2, Some b => Some (20 + b)
      | Some 1, Some b => Some (10 + b)
      | Some 0, Some b => if (1 <=? b)%nat then Some b else None
      | None, Some b => if Ascii.eqb a " " && (1 <=? b)%nat then Some b else None
      | _, _ => None
      end
  | _ => None
  end.

Definition is_leap (y : nat) : bool :=
  ((y mod 4 =? 0) && (negb (y mod 100 =? 0) || (y mod 400 =? 0)))%nat.

Definition days_in_month (y m : nat) : nat :=
  match m with
  | 2 => if is_leap y then 29 else 28
  | 4 | 6 | 9 | 11 => 30
  | _ => 31
  end.

(** [dt.datetime.strptime(s, "%Y-%m-%d").date()]: the three fields, then
    the range checks of the [datetime] constructor. *)
Definition strptime_ymd (s : string) : result date :=
  match split "-" s with
  | [y; m; d] =>
      match year_field y, month_field m, day_field d with
      | Some y, Some m, Some d =>
          if (y =? 0)%nat then Raise (ValueError "year 0 is out of range")
          else if (days_in_month y m <? d)%nat
          then Raise (ValueError "day is out of range for month")
          else Ok (mkdate y m d)
      | _, _, _ => Raise (ValueError "time data does not match format '%Y-%m-%d'")
      end
  | _ => Raise (ValueError "time data does not match format '%Y-%m-%d'")
  end.

(** [a < b] on dates. *)
Definition date_ltb (a b : date) : bool :=
  ((year a <? year b)
   || ((year a =? year b)
       && ((month a <? month b) || ((month a =? month b) && (day a <? day b)))))%nat.

(** The parsed command line ([argparse.Namespace]). *)
Record namespace : Type := mkargs {
  start_date : option string;
  end_date : option string;
  out : string;
  segment : string;
  no_il : bool;
  allowed_countries : option string;
  blocked_countries : option string
}.

(** [if s] on an optional [str] argument. *)
Definition given (a : option string) : option string :=
  match a with
  | Some s => if nonempty s then Some s else None
  | None => None
  end.

Definition ensure_dates (args : namespace) : result (date * date) :=
  let default_start := mkdate 2025 10 1 in
  let default_end := mkdate 2026 7 1 in
  start <- match given (start_date args) with
           | Some s => strptime_ymd s
           | None => Ok default_start
           end ;;
  end_ <- match given (end_date args) with
          | Some s => strptime_ymd s
          | None => Ok default_end
          end ;;
  if date_ltb end_ start
  then Raise (ValueError "end-date must be on/after start-date")
  else Ok (start, end_).

Definition decimal (n : nat) : string := NilZero.string_of_uint (Nat.to_uint n).

(** A number in at least [w] digits, zero-padded on the left. *)
Definition zero_pad (w n : nat) : string :=
  let s := decimal n in
  (string_of_list_ascii (repeat "0"%char (w - String.length s)) ++ s)%string.

(** [d.strftime('%Y-%m-%d')]; the year in four digits. *)
Definition strftime_ymd (d : date) : string :=
  (zero_pad 4 (year d) ++ "-" ++ zero_pad 2 (month d) ++ "-" ++ zero_pad 2 (day d))%string.

Definition to_iso_range (start_date end_date : date) : string * string :=
  ((strftime_ymd start_date ++ "T00:00:00Z")%string,
   (strftime_ymd end_date ++ "T23:59:59Z")%string).

(* ===================================================================== *)
(** ** The outside world: requests sent and the output file *)
(* ===================================================================== *)

(** The query parameters of one call to the events endpoint. *)
Record request : Type := mkreq {
  segmentName : string;
  startDateTime : string;
  endDateTime : string;
  size : nat;
  page : nat;
  apikey : string;
  countryCode : option string
}.

(** A CSV file as the rows handed to the writer, each a list of cells; the
    encoding and its byte-order mark are below this model. *)
Definition csv_file : Type := list (list json).

(** [sent]: the requests issued so far, oldest first.  [file]: the output
    path and its content once it has been opened for writing. *)
Record world : Type := mkworld {
  sent : list request;
  file : option (string * csv_file)
}.

Definition initial_world : world := mkworld [] None.

(** A computation that may send requests and write the file. *)
Definition io (A : Type) : Type := world -> result A * world.

Definition io_ret {A : Type} (a : A) : io A := fun w => (Ok a, w).

Definition io_raise {A : Type} (e : exn) : io A := fun w => (Raise e, w).

Definition io_lift {A : Type} (c : result A) : io A := fun w => (c, w).

Definition io_bind {A B : Type} (c : io A) (k : A -> io B) : io B :=
  fun w =>
    match c w with
    | (Ok a, w') => k a w'
    | (Raise e, w') => (Raise e, w')
    end.

Notation "x <~ c ;; k" := (io_bind c (fun x => k))
  (at level 61, c at next level, right associativity) : py_scope.

Definition send (r : request) : io unit :=
  fun w => (Ok tt, mkworld (sent w ++ [r]) (file w)).

(* ===================================================================== *)
(** ** Page fetcher and paginator *)
(* ===================================================================== *)

(** What [fetch_events_page] makes of the decoded response. *)
Definition read_page (data : json) : result (list row * bool) :=
  emb <- py_get data "_embedded" ;;
  events0 <- py_get (py_or emb (JObj [])) "events" ;;
  events <- py_iter (py_or events0 (JArr [])) ;;
  rows <- map_result normalize_row events ;;
  links <- py_get data "_links" ;;
  next <- py_get (py_or links (JObj [])) "next" ;;
  Ok (rows, truthy next).

Section Network.

(** The remote API: the decoded body of the response to a request, or the
    exception [urlopen] or [json.loads] raises. *)
Variable api : request -> result json.

(** [API_KEY], when the environment holds a non-empty one. *)
Variable API_KEY : string.

Definition page_request (segment_name start_iso end_iso : string) (page size : nat)
    (country_code : option string) : request :=
  mkreq segment_name start_iso end_iso size page API_KEY (given country_code).

Definition fetch_events_page (segment_name start_iso end_iso : string)
    (page size : nat) (country_code : option string) : io (list row * bool) :=
  let req := page_request segment_name start_iso end_iso page size country_code in
  _ <~ send req ;;
  data <~ io_lift (api req) ;;
  io_lift (read_page data).

(** The second half of the loop's exit test:
    [(page + 1) * 200 >= DEEP_PAGING_LIMIT]. *)
Definition past_limit (page : nat)
  : {DEEP_PAGING_LIMIT <= (page + 1) * 200} + {(page + 1) * 200 < DEEP_PAGING_LIMIT} :=
  le_lt_dec DEEP_PAGING_LIMIT ((page + 1) * 200).

(** The [while True] loop of [paginate], from the state [(page, rows_all)].
    It ends because the page index is bounded by the deep-paging guard. *)
Equations? paginate_loop (segment start_iso end_iso : string)
    (country_code : option string) (page : nat) (rows_all : list row) (w : world)
    : result (list row) * world by wf (5 - page) lt :=
  paginate_loop segment start_iso end_iso country_code page rows_all w
    with fetch_events_page segment start_iso end_iso page 200 country_code w => {
    | (Raise e, w') := (Raise e, w');
    | (Ok ([], _), w') := (Ok rows_all, w');
    | (Ok (r :: page_rows, false), w') := (Ok (rows_all ++ r :: page_rows), w');
    | (Ok (r :: page_rows, true), w')
        with past_limit page => {
        | left _ := (Ok (rows_all ++ r :: page_rows), w');
        | right below :=
            paginate_loop segment start_iso end_iso country_code (page + 1)
                          (rows_all ++ r :: page_rows) w' } }.
Proof.
  unfold DEEP_PAGING_LIMIT in below.
  match goal with |- ?a < ?b => change (5 - (page0 + 1) < 5 - page0) end.
  lia.
Qed.

Definition paginate (segment start_iso end_iso : string)
    (country_code : option string) : io (list row) :=
  paginate_loop segment start_iso end_iso country_code 0 [].

(** The request for page [p] of a scope. *)
Definition scope_request (segment start_iso end_iso : string)
    (country_code : option string) (p : nat) : request :=
  page_request segment start_iso end_iso p 200 country_code.

(** What the page fetcher returns for page [p] of a scope. *)
Definition fetched (segment start_iso end_iso : string)
    (country_code : option string) (p : nat) : result (list row * bool) :=
  data <- api (scope_request segment start_iso end_iso country_code p) ;;
  read_page data.

(** The world once the request for page [p] has been sent. *)
Definition after_request (segment start_iso end_iso : string)
    (country_code : option string) (p : nat) (w : world) : world :=
  mkworld (sent w ++ [scope_request segment start_iso end_iso country_code p]) (file w).

End Network.

(* ===================================================================== *)
(** ** CSV writer ([csv.DictWriter], excel dialect) *)
(* ===================================================================== *)

Definition headers : list string :=
  [ "event_id"; "event_name"; "local_date"; "local_time"; "city"; "country";
    "venue_name"; "genre_name"; "subgenre_name"; "artist_primary"; "artists"; "url" ].

(** The cells [DictWriter] hands to the writer for one row: a key outside
    [fieldnames] is refused, a missing one is written as the empty string. *)
Definition dict_to_list (fieldnames : list string) (r : row) : result (list json) :=
  if existsb (fun kv => negb (str_mem (fst kv) fieldnames)) r
  then Raise (ValueError "dict contains fields not in fieldnames")
  else Ok (map (fun h => match dict_lookup h r with
                         | Some v => v
                         | None => JStr ""
                         end) fieldnames).

Definition dquote : ascii := "034"%char.

(** A character that makes the writer quote the field: the delimiter, the
    quote character, carriage return or line feed. *)
Definition special_char (c : ascii) : bool :=
  Ascii.eqb c ","%char || Ascii.eqb c dquote || Ascii.eqb c "013"%char || Ascii.eqb c "010"%char.

Fixpoint has_special (s : string) : bool :=
  match s with
  | EmptyString => false
  | String c rest => special_char c || has_special rest
  end.

Fixpoint double_quotes (s : string) : string :=
  match s with
  | EmptyString => EmptyString
  | String c rest =>
      if Ascii.eqb c dquote then String c (String c (double_quotes rest))
      else String c (double_quotes rest)
  end.

(** One field under [QUOTE_MINIMAL]. *)
Definition csv_field (s : string) : string :=
  if has_special s
  then String dquote (double_quotes s ++ String dquote EmptyString)%string
  else s.

(** The text of one cell: [None] is empty, anything else is [str(value)].
    The [repr] of a list or dict is not modelled. *)
Definition csv_cell (x : json) : option string :=
  match x with
  | JNull => Some EmptyString
  | JStr s => Some (csv_field s)
  | JBool true => Some "True"
  | JBool false => Some "False"
  | JNum n => Some (NilZero.string_of_int (Z.to_int n))
  | JArr _ | JObj _ => None
  end.

Fixpoint csv_cells (cells : list json) : option (list string) :=
  match cells with
  | [] => Some []
  | c :: rest =>
      match csv_cell c, csv_cells rest with
      | Some s, Some ss => Some (s :: ss)
      | _, _ => None
      end
  end.

(** One record, without its line terminator; a lone empty field is quoted. *)
Definition csv_line (cells : list json) : option string :=
  match csv_cells cells with
  | Some [EmptyString] => Some (String dquote (String dquote EmptyString))
  | Some fields => Some (String.concat "," fields)
  | None => None
  end.

(** [open(path, "w")]: the file exists and is empty. *)
Definition open_w (path : string) : io unit :=
  fun w => (Ok tt, mkworld (sent w) (Some (path, []))).

(** The writer appends one record to the open file. *)
Definition write_record (cells : list json) : io unit :=
  fun w =>
    match file w with
    | Some (path, content) => (Ok tt, mkworld (sent w) (Some (path, content ++ [cells])))
    | None => (Raise (ValueError "I/O operation on closed file"), w)
    end.

Definition writeheader (fieldnames : list string) : io unit :=
  write_record (map JStr fieldnames).

Definition writerow (fieldnames : list string) (r : row) : io unit :=
  cells <~ io_lift (dict_to_list fieldnames r) ;;
  write_record cells.

Fixpoint writerows (fieldnames : list string) (rows : list row) : io unit :=
  match rows with
  | [] => io_ret tt
  | r :: rest => _ <~ writerow fieldnames r ;; writerows fieldnames rest
  end.

(* ===================================================================== *)
(** ** [main] *)
(* ===================================================================== *)

Definition labels (l : list string) : option (list (option string)) := Some (map Some l).

(** [main], with the API, the environment's key and the parsed arguments. *)
Definition main (api : request -> result json) (API_KEY : option string)
    (args : namespace) : io unit :=
  match given API_KEY with
  | None => io_raise (ValueError "Missing API_KEY")
  | Some key =>
      dates <~ io_lift (ensure_dates args) ;;
      let (start_iso, end_iso) := to_iso_range (fst dates) (snd dates) in
      let allowed := parse_list (allowed_countries args) DEFAULT_ALLOWED in
      let blocked := parse_list (blocked_countries args) [] in
      world_rows <~ paginate api key (segment args) start_iso end_iso None ;;
      il_rows <~ (if no_il args then io_ret []
                  else paginate api key (segment args) start_iso end_iso (Some "IL")) ;;
      all_rows <~ io_lift (deduplicate world_rows il_rows) ;;
      filtered_rows <~ io_lift (filter_by_countries all_rows (labels allowed) (labels blocked)) ;;
      _ <~ open_w (out args) ;;
      _ <~ writeheader headers ;;
      writerows headers filtered_rows
  end.

(** The script run as a program: the module-level check of the key, then
    [main]. *)
Definition program (api : request -> result json) (env_key : option string)
    (args : namespace) : io unit :=
  match given env_key with
  | None => io_raise (ValueError "Missing TICKETMASTER_API_KEY environment variable")
  | Some _ => main api env_key args
  end.

(** The API of the end-to-end example: one page holding [example_event] and
    no link to a next page. *)
Definition example_api (r : request) : result json :=
  Ok (JObj [ ("_embedded", JObj [ ("events", JArr [example_event]) ]) ]).

Definition example_args : namespace :=
  mkargs None None "world_music_events.csv" "music" true None None.

(* ===================================================================== *)
(** ** Specification-level definitions *)
(* ===================================================================== *)

(** A value read as [(x or {}).get(...)]: a dict, or falsy. *)
Definition falsy_or_dict (x : json) : bool := negb (truthy x) || is_dict x.

(** The fields of a dict; none for any other value. *)
Definition fields_of (x : json) : list (string * json) :=
  match x with JObj d => d | _ => [] end.

Definition is_text (x : json) : bool :=
  match x with JStr _ => true | _ => false end.

(** [venues] is falsy or a list that starts with a dict, whose city and
    country are dicts or falsy. *)
Definition venues_ok (venues : json) : bool :=
  match py_or venues (JArr [JObj []]) with
  | JArr (JObj v :: _) =>
      falsy_or_dict (dict_get v "city") && falsy_or_dict (dict_get v "country")
  | _ => false
  end.

(** [classifications] is falsy or a list that starts with a dict, whose
    genre and subGenre are dicts or falsy. *)
Definition classifications_ok (cls_list : json) : bool :=
  match py_or cls_list (JArr [JObj []]) with
  | JArr (JObj cls :: _) =>
      falsy_or_dict (dict_get cls "genre") && falsy_or_dict (dict_get cls "subGenre")
  | _ => false
  end.

(** [dates] and its [start] are dicts or falsy. *)
Definition dates_ok (dates : json) : bool :=
  falsy_or_dict dates
  && falsy_or_dict (dict_get (fields_of (py_or dates (JObj []))) "start").

(** The name of an attraction dict is a string or falsy. *)
Definition attraction_ok (a : json) : bool :=
  match a with
  | JObj d => negb (truthy (dict_get d "name")) || is_text (dict_get d "name")
  | _ => true
  end.

(** [attractions] is falsy or iterable, and its dicts have string names. *)
Definition attractions_ok (atts : json) : bool :=
  match py_or atts (JArr []) with
  | JArr items => forallb attraction_ok items
  | JStr _ | JObj _ => true
  | JNull | JBool _ | JNum _ => false
  end.

(** The event is a dict whose nested fields have the shapes the normaliser
    reads without an exception. *)
Definition well_shaped (e : json) : bool :=
  match e with
  | JObj d =>
      let emb := dict_get d "_embedded" in
      falsy_or_dict emb
      && venues_ok (dict_get (fields_of (py_or emb (JObj []))) "venues")
      && attractions_ok (dict_get (fields_of (py_or emb (JObj []))) "attractions")
      && classifications_ok (dict_get d "classifications")
      && dates_ok (dict_get d "dates")
  | _ => false
  end.

(** Two names are the same member of a set. *)
Definition same_key (a b : json) : bool :=
  match py_hash a, py_hash b with
  | Ok x, Ok y => pykey_eqb x y
  | _, _ => false
  end.

Definition hashable (x : json) : bool :=
  match py_hash x with Ok _ => true | Raise _ => false end.

(** De-duplication preserving first-seen order, in the words of the
    specification: a name is kept, and its later repetitions are dropped. *)
Fixpoint first_seen (names : list json) : list json :=
  match names with
  | [] => []
  | n :: rest => n :: filter (fun m => negb (same_key n m)) (first_seen rest)
  end.

(** A name list free of duplicates. *)
Fixpoint no_repeat (names : list json) : bool :=
  match names with
  | [] => true
  | n :: rest => negb (existsb (same_key n) rest) && no_repeat rest
  end.

Definition text_of (x : json) : string :=
  match x with JStr s => s | _ => EmptyString end.

(** The joined artist field: empty for no artist, else the names separated
    by a semicolon and a space. *)
Definition joined (artists : list json) : json :=
  match artists with
  | [] => JNull
  | _ :: _ => JStr (String.concat "; " (map text_of artists))
  end.

(** The names the comprehension collects from the items of [atts]. *)
Definition collected (items : list json) : list json :=
  flat_map (fun a => match a with
                     | JObj d => if truthy (dict_get d "name") then [dict_get d "name"] else []
                     | _ => []
                     end) items.

(** Membership of a name in the set [seen]. *)
Definition in_seen (seen : list pykey) (m : json) : bool :=
  match py_hash m with
  | Ok k => key_mem k seen
  | Raise _ => false
  end.

(** The items a [for] loop reads from a value; none when it is not iterable. *)
Definition items_of (x : json) : list json :=
  match py_iter x with Ok l => l | Raise _ => [] end.

(** The dict at the head of a list. *)
Definition first_dict (x : json) : list (string * json) :=
  match x with JArr (JObj v :: _) => v | _ => [] end.

(** [(d.get(k) or {}).get("name")] when the value under [k] is a dict or
    falsy. *)
Definition name_under (d : list (string * json)) (k : string) : json :=
  dict_get (fields_of (py_or (dict_get d k) (JObj []))) "name".

(** The artists of an event given by its fields. *)
Definition artists_of (d : list (string * json)) : list json :=
  let emb := fields_of (py_or (dict_get d "_embedded") (JObj [])) in
  first_seen (collected (items_of (py_or (dict_get emb "attractions") (JArr [])))).

(** The row of a well-shaped event, field by field. *)
Definition flat_row (d : list (string * json)) : row :=
  let emb := fields_of (py_or (dict_get d "_embedded") (JObj [])) in
  let v := first_dict (py_or (dict_get emb "venues") (JArr [JObj []])) in
  let cls := first_dict (py_or (dict_get d "classifications") (JArr [JObj []])) in
  let dates := fields_of (py_or (dict_get d "dates") (JObj [])) in
  let start := fields_of (py_or (dict_get dates "start") (JObj [])) in
  [ ("event_id", dict_get d "id");
    ("event_name", dict_get d "name");
    ("local_date", dict_get start "localDate");
    ("local_time", dict_get start "localTime");
    ("city", name_under v "city");
    ("country", name_under v "country");
    ("venue_name", dict_get v "name");
    ("genre_name", name_under cls "genre");
    ("subgenre_name", name_under cls "subGenre");
    ("artist_primary", hd JNull (artists_of d));
    ("artists", joined (artists_of d));
    ("url", dict_get d "url") ].

(** The key a row is stored under: [hash(r["event_id"])]. *)
Definition row_key (r : row) : result pykey :=
  id <- row_item r "event_id" ;; py_hash id.

(** The row has an identifier that can be a key. *)
Definition keyed (r : row) : bool :=
  match row_key r with Ok _ => true | Raise _ => false end.

(** The row is stored under key [k]. *)
Definition has_key (k : pykey) (r : row) : bool :=
  match row_key r with Ok k' => pykey_eqb k k' | Raise _ => false end.

(** Two rows carry the same identifier. *)
Definition same_id (a b : row) : bool :=
  match row_key a with Ok k => has_key k b | Raise _ => false end.

(** The identifier of the row is [None]. *)
Definition id_absent (r : row) : bool :=
  match dict_lookup "event_id" r with
  | Some JNull => true
  | _ => false
  end.

(** The last element of a list, if any. *)
Fixpoint last_opt {A : Type} (l : list A) : option A :=
  match l with
  | [] => None
  | a :: rest => match last_opt rest with Some b => Some b | None => Some a end
  end.

Definition opt_list {A : Type} (o : option A) : list A :=
  match o with Some a => [a] | None => [] end.

(** The row stored under [k] in [combined]. *)
Fixpoint find_key (k : pykey) (c : list (pykey * row)) : option row :=
  match c with
  | [] => None
  | (k', r) :: rest => if pykey_eqb k k' then Some r else find_key k rest
  end.

(** The state of [combined]: distinct keys, each row under its own key. *)
Definition combined_ok (c : list (pykey * row)) : Prop :=
  NoDup (map fst c) /\ Forall (fun kr => row_key (snd kr) = Ok (fst kr)) c.

(** The country of the row is a string or falsy. *)
Definition country_text_ok (r : row) : bool :=
  negb (truthy (dict_get r "country")) || is_text (dict_get r "country").

(** The label the filter compares: the country, absent read as the empty
    string, trimmed and lower-cased. *)
Definition country_label (r : row) : string :=
  lower (strip (text_of (py_or (dict_get r "country") (JStr "")))).

(** The filter in the words of the specification: with an active allow-list
    the label must be in it, and in any case it must not be in the
    block-list. *)
Definition retained (allowed blocked : option (list (option string))) (r : row) : bool :=
  (negb (set_truthy (label_set allowed)) || str_mem (country_label r) (label_set allowed))
  && negb (str_mem (country_label r) (label_set blocked)).

(** An API whose first page holds 1001 events and no next link. *)
Definition oversized_api (r : request) : result json :=
  Ok (JObj [ ("_embedded", JObj [ ("events", JArr (repeat (JObj []) 1001)) ]) ]).

(** An API whose page 0 holds the example event and whose later pages hold
    no event; every page reports a next link. *)
Definition trailing_empty_api (r : request) : result json :=
  let next := ("_links", JObj [ ("next", JObj [ ("href", JStr "/next") ]) ]) in
  match page r with
  | 0 => Ok (JObj [ ("_embedded", JObj [ ("events", JArr [example_event]) ]); next ])
  | _ => Ok (JObj [ next ])
  end.

(** An API whose every page holds 200 events and reports a next link. *)
Definition full_pages_api (r : request) : result json :=
  Ok (JObj [ ("_embedded", JObj [ ("events", JArr (repeat (JObj []) 200)) ]);
             ("_links", JObj [ ("next", JObj [ ("href", JStr "/next") ]) ]) ]).

(** The cells of the example's data row. *)
Definition example_cells : list json :=
  [ JStr "E1"; JStr "Show"; JStr "2025-11-01"; JStr "20:00:00";
    JStr "Tel Aviv"; JStr "Israel"; JStr "Hall"; JStr "Rock"; JNull;
    JStr "Band A"; JStr "Band A"; JStr "http://x" ].

(** An event with the attractions A, B and A again. *)
Definition repeated_band_event : json :=
  JObj [ ("_embedded",
           JObj [ ("attractions",
                    JArr [ JObj [("name", JStr "A")];
                           JObj [("name", JStr "B")];
                           JObj [("name", JStr "A")] ]) ]) ].

(** A row with the given identifier, name and country. *)
Definition sample_row (id name country : json) : row :=
  [ ("event_id", id); ("event_name", name); ("country", country) ].

(** Four rows: two spellings of Canada, France, and no country. *)
Definition sample_rows : list row :=
  [ sample_row (JStr "E1") JNull (JStr "CANADA");
    sample_row (JStr "E2") JNull (JStr "France");
    sample_row (JStr "E3") JNull JNull;
    sample_row (JStr "E4") JNull (JStr " canada ") ].

(** The row of [example_event]. *)
Definition example_row : row :=
  [ ("event_id", JStr "E1"); ("event_name", JStr "Show");
    ("local_date", JStr "2025-11-01"); ("local_time", JStr "20:00:00");
    ("city", JStr "Tel Aviv"); ("country", JStr "Israel");
    ("venue_name", JStr "Hall"); ("genre_name", JStr "Rock");
    ("subgenre_name", JNull); ("artist_primary", JStr "Band A");
    ("artists", JStr "Band A"); ("url", JStr "http://x") ].

(** The key of a row, [None] standing in when it has none. *)
Definition key_of (r : row) : pykey :=
  match row_key r with Ok k => k | Raise _ => KNone end.

(** The keys of a list in the order of their first occurrence. *)
Definition first_occurrences (keys : list pykey) : list pykey :=
  fold_left (fun acc k => if key_mem k acc then acc else acc ++ [k]) keys [].

(** No two rows of the list carry the same identifier. *)
Fixpoint distinct_ids (rows : list row) : bool :=
  match rows with
  | [] => true
  | r :: rest => negb (existsb (same_id r) rest) && distinct_ids rest
  end.

(** The exceptions a malformed event can raise in the normaliser. *)
Definition shape_error (x : exn) : Prop :=
  x = AttributeError \/ x = TypeError \/ x = KeyError.

(** The top-level keys of an event the normaliser reads. *)
Definition event_keys : list string :=
  ["_embedded"; "classifications"; "dates"; "id"; "name"; "url"].

(** [events] of a response given by its fields:
    [(data.get("_embedded") or {}).get("events") or []]. *)
Definition page_events (d : list (string * json)) : json :=
  py_or (dict_get (fields_of (py_or (dict_get d "_embedded") (JObj []))) "events") (JArr []).

(** [(data.get("_links") or {}).get("next")] of a response given by its
    fields. *)
Definition page_next (d : list (string * json)) : json :=
  dict_get (fields_of (py_or (dict_get d "_links") (JObj []))) "next".

(** The row has exactly the keys of the CSV header, in header order. *)
Definition header_row (r : row) : Prop := map fst r = headers.

(** The requests of a scope for pages 0 to n-1. *)
Definition scope_requests (API_KEY segment start_iso end_iso : string)
    (country_code : option string) (n : nat) : list request :=
  map (scope_request API_KEY segment start_iso end_iso country_code) (seq 0 n).

(** A date of the calendar, with a year of one to four digits. *)
Definition valid_date (d : date) : Prop :=
  1 <= year d < 100 * 100
  /\ 1 <= month d <= 12
  /\ 1 <= day d <= days_in_month (year d) (month d).



(* ===================================================================== *)
(** ** Concrete runs *)
(* ===================================================================== *)

Example normalize_row_example :
  normalize_row example_event =
  Ok [ ("event_id", JStr "E1"); ("event_name", JStr "Show");
       ("local_date", JStr "2025-11-01"); ("local_time", JStr "20:00:00");
       ("city", JStr "Tel Aviv"); ("country", JStr "Israel");
       ("venue_name", JStr "Hall"); ("genre_name", JStr "Rock");
       ("subgenre_name", JNull); ("artist_primary", JStr "Band A");
       ("artists", JStr "Band A"); ("url", JStr "http://x") ].
Proof. reflexivity. Qed.

Example lower_example : lower "Great BRITAIN" = "great britain".
Proof. reflexivity. Qed.

Example strip_example : strip "  Tel Aviv  " = "Tel Aviv".
Proof. reflexivity. Qed.

Example parse_list_example :
  parse_list (Some " uk, ,France,USA ") DEFAULT_ALLOWED
  = ["Great Britain"; "France"; "United States Of America"].
Proof. reflexivity. Qed.

Example strptime_example : strptime_ymd "2025-11-01" = Ok (mkdate 2025 11 1).
Proof. reflexivity. Qed.

Example strptime_short_fields : strptime_ymd "2025-1-5" = Ok (mkdate 2025 1 5).
Proof. reflexivity. Qed.

Example strptime_bad_day :
  strptime_ymd "2025-02-30" = Raise (ValueError "day is out of range for month").
Proof. reflexivity. Qed.

Example to_iso_range_example :
  to_iso_range (mkdate 2025 10 1) (mkdate 2026 7 1)
  = ("2025-10-01T00:00:00Z", "2026-07-01T23:59:59Z").
Proof. reflexivity. Qed.

(* ===================================================================== *)
(** ** The [result] monad *)
(* ===================================================================== *)

Lemma bind_ok {A B : Type} (c : result A) (k : A -> result B) (b : B) :
  bind c k = Ok b -> exists a, c = Ok a /\ k a = Ok b.
Proof.
  destruct c as [a | e]; simpl; intros H.
  - exists a. split; [reflexivity | exact H].
  - discriminate H.
Qed.

(** Splits a successful chain of binds into its successful steps. *)
Ltac bind_inv :=
  repeat match goal with
         | H : bind _ _ = Ok _ |- _ =>
             apply bind_ok in H;
             let a := fresh "a" in
             let Ha := fresh "Ha" in
             destruct H as (a & Ha & H); cbv beta zeta in H
         end.

Lemma py_get_ok (x : json) (k : string) (v : json) :
  py_get x k = Ok v -> exists d, x = JObj d /\ v = dict_get d k.
Proof.
  destruct x; simpl; intros H; try discriminate H.
  injection H as <-. eexists. split; reflexivity.
Qed.

Lemma py_get_falsy_or_dict (x : json) (k : string) :
  falsy_or_dict x = true ->
  py_get (py_or x (JObj [])) k = Ok (dict_get (fields_of (py_or x (JObj []))) k).
Proof.
  unfold falsy_or_dict, py_or. destruct (truthy x) eqn:T; simpl.
  - destruct x; simpl; intros H; try discriminate H. reflexivity.
  - reflexivity.
Qed.

(* ===================================================================== *)
(** ** Artist extraction *)
(* ===================================================================== *)

Lemma comprehension_ok (items : list json) :
  map_result (fun a => py_get a "name") (filter named_attraction items)
  = Ok (collected items).
Proof.
  induction items as [| a items IH]; simpl; [reflexivity |].
  destruct a as [| b | n | s | l | d]; simpl; try exact IH.
  destruct (truthy (dict_get d "name")); simpl; [| exact IH].
  rewrite IH. reflexivity.
Qed.

Lemma collected_truthy (items : list json) :
  Forall (fun n => truthy n = true) (collected items).
Proof.
  induction items as [| a items IH]; simpl; [constructor |].
  destruct a as [| b | n | s | l | d]; simpl; try exact IH.
  destruct (truthy (dict_get d "name")) eqn:T; simpl; [| exact IH].
  constructor; assumption.
Qed.

Lemma collected_text (items : list json) :
  forallb attraction_ok items = true -> forallb is_text (collected items) = true.
Proof.
  induction items as [| a items IH]; simpl; [reflexivity |].
  intros H. apply andb_true_iff in H as [Ha Hr].
  destruct a as [| b | n | s | l | d]; simpl; auto.
  simpl in Ha. destruct (truthy (dict_get d "name")); simpl in *; auto.
  rewrite Ha. simpl. auto.
Qed.

Lemma collected_chars (s : string) : collected (chars s) = [].
Proof. induction s as [| c s IH]; simpl; [reflexivity | exact IH]. Qed.

Lemma collected_keys (d : list (string * json)) :
  collected (map (fun kv => JStr (fst kv)) d) = [].
Proof. induction d as [| kv d IH]; simpl; [reflexivity | exact IH]. Qed.

Lemma pykey_eqb_eq (a b : pykey) : pykey_eqb a b = true <-> a = b.
Proof.
  destruct a, b; simpl; split; intros H; try discriminate H; try reflexivity.
  - apply Z.eqb_eq in H. congruence.
  - injection H as ->. apply Z.eqb_refl.
  - apply String.eqb_eq in H. congruence.
  - injection H as ->. apply String.eqb_refl.
Qed.

Lemma pykey_eqb_refl (a : pykey) : pykey_eqb a a = true.
Proof. apply pykey_eqb_eq. reflexivity. Qed.

Lemma pykey_eqb_sym (a b : pykey) : pykey_eqb a b = pykey_eqb b a.
Proof.
  destruct (pykey_eqb a b) eqn:E.
  - apply pykey_eqb_eq in E. subst. symmetry. apply pykey_eqb_refl.
  - destruct (pykey_eqb b a) eqn:E'; [| reflexivity].
    apply pykey_eqb_eq in E'. subst. rewrite pykey_eqb_refl in E. discriminate E.
Qed.

Lemma filter_ext_in_bool {A : Type} (p q : A -> bool) (l : list A) :
  (forall x, In x l -> p x = q x) -> filter p l = filter q l.
Proof.
  induction l as [| a l IH]; simpl; intros H; [reflexivity |].
  rewrite (H a (or_introl eq_refl)), IH; [reflexivity |].
  intros x Hx. apply H. right. exact Hx.
Qed.

Lemma filter_filter {A : Type} (p q : A -> bool) (l : list A) :
  filter p (filter q l) = filter (fun x => q x && p x) l.
Proof.
  induction l as [| a l IH]; simpl; [reflexivity |].
  destruct (q a); simpl; [destruct (p a) |]; rewrite IH; reflexivity.
Qed.

(** The loop computes the first-seen names that are not yet in [seen]. *)
Lemma first_seen_loop_spec (names : list json) :
  forallb hashable names = true ->
  forall seen out,
    first_seen_loop names seen out
    = Ok (out ++ filter (fun m => negb (in_seen seen m)) (first_seen names)).
Proof.
  induction names as [| n rest IH]; simpl; intros Hh seen out.
  - rewrite app_nil_r. reflexivity.
  - apply andb_true_iff in Hh as [Hn Hrest].
    unfold hashable in Hn. unfold in_seen at 1.
    destruct (py_hash n) as [k |] eqn:Hk; [| discriminate Hn]. simpl.
    destruct (key_mem k seen) eqn:Hmem; simpl.
    + rewrite (IH Hrest). f_equal. f_equal.
      rewrite filter_filter. apply filter_ext_in_bool. intros m _.
      unfold same_key, in_seen. rewrite Hk.
      destruct (py_hash m) as [k' |]; [| reflexivity].
      destruct (pykey_eqb k k') eqn:E; simpl; [| reflexivity].
      apply pykey_eqb_eq in E. subst k'. rewrite Hmem. reflexivity.
    + rewrite (IH Hrest). rewrite <- app_assoc. simpl. f_equal. f_equal. f_equal.
      rewrite filter_filter. apply filter_ext_in_bool. intros m _.
      unfold same_key, in_seen. rewrite Hk.
      destruct (py_hash m) as [k' |]; [| reflexivity]. simpl.
      rewrite (pykey_eqb_sym k' k).
      destruct (pykey_eqb k k'); reflexivity.
Qed.

Lemma filter_all {A : Type} (p : A -> bool) (l : list A) :
  forallb p l = true -> filter p l = l.
Proof.
  induction l as [| a l IH]; simpl; [reflexivity |].
  intros H. apply andb_true_iff in H as [Ha Hl]. rewrite Ha, IH; auto.
Qed.

Lemma forallb_negb_existsb {A : Type} (p : A -> bool) (l : list A) :
  forallb (fun x => negb (p x)) l = negb (existsb p l).
Proof.
  induction l as [| a l IH]; simpl; [reflexivity |].
  rewrite IH, negb_orb. reflexivity.
Qed.

(** On a list free of duplicates, first-seen de-duplication is the identity. *)
Lemma first_seen_no_repeat (names : list json) :
  no_repeat names = true -> first_seen names = names.
Proof.
  induction names as [| n rest IH]; simpl; [reflexivity |].
  intros H. apply andb_true_iff in H as [Hn Hrest].
  rewrite (IH Hrest). f_equal. apply filter_all.
  rewrite forallb_negb_existsb. exact Hn.
Qed.

(** De-duplication is idempotent. *)
Lemma first_seen_filter (p : json -> bool) (names : list json) :
  (forall a b, same_key a b = true -> p a = p b) ->
  first_seen (filter p names) = filter p (first_seen names).
Proof.
  intros Hp. induction names as [| n rest IH]; simpl; [reflexivity |].
  destruct (p n) eqn:Pn; simpl.
  - rewrite IH. f_equal. rewrite !filter_filter.
    apply filter_ext_in_bool. intros m _. apply andb_comm.
  - rewrite IH, filter_filter. apply filter_ext_in_bool. intros m _.
    destruct (same_key n m) eqn:E; simpl; [| destruct (p m); reflexivity].
    rewrite <- (Hp n m E), Pn. reflexivity.
Qed.

Lemma same_key_trans_l (n a b : json) :
  same_key a b = true -> same_key n a = same_key n b.
Proof.
  unfold same_key.
  destruct (py_hash a) as [ka |]; [| discriminate].
  destruct (py_hash b) as [kb |]; [| discriminate].
  intros E. apply pykey_eqb_eq in E. subst. reflexivity.
Qed.

Lemma first_seen_idempotent (names : list json) :
  first_seen (first_seen names) = first_seen names.
Proof.
  induction names as [| n rest IH]; simpl; [reflexivity |].
  f_equal. rewrite first_seen_filter.
  - rewrite IH, filter_filter. apply filter_ext_in_bool. intros m _.
    apply andb_diag.
  - intros a b E. rewrite (same_key_trans_l n a b E). reflexivity.
Qed.

Lemma first_seen_no_repeat_out (names : list json) :
  forallb hashable names = true -> no_repeat (first_seen names) = true.
Proof.
  induction names as [| n rest IH]; simpl; [reflexivity |].
  intros H. apply andb_true_iff in H as [Hn Hrest].
  apply andb_true_iff. split.
  - rewrite <- forallb_negb_existsb. apply forallb_forall.
    intros m Hm. apply filter_In in Hm. apply Hm.
  - specialize (IH Hrest). revert IH.
    generalize (first_seen rest) as l. intros l.
    induction l as [| a l IHl]; simpl; [reflexivity |].
    intros H. apply andb_true_iff in H as [Ha Hl].
    destruct (same_key n a); simpl; [apply IHl; exact Hl |].
    apply andb_true_iff. split; [| apply IHl; exact Hl].
    rewrite <- forallb_negb_existsb in *.
    apply forallb_forall. intros m Hm. apply filter_In in Hm as [Hm _].
    rewrite forallb_forall in Ha. apply Ha. exact Hm.
Qed.

Lemma text_hashable (l : list json) :
  forallb is_text l = true -> forallb hashable l = true.
Proof.
  induction l as [| a l IH]; simpl; [reflexivity |].
  intros H. apply andb_true_iff in H as [Ha Hl]. rewrite (IH Hl).
  destruct a; try discriminate Ha. reflexivity.
Qed.

Lemma first_seen_text (l : list json) :
  forallb is_text l = true -> forallb is_text (first_seen l) = true.
Proof.
  induction l as [| a l IH]; simpl; [reflexivity |].
  intros H. apply andb_true_iff in H as [Ha Hl]. rewrite Ha. simpl.
  specialize (IH Hl). rewrite forallb_forall in *.
  intros m Hm. apply filter_In in Hm as [Hm _]. apply IH. exact Hm.
Qed.

Lemma py_join_text (sep : string) (l : list json) :
  forallb is_text l = true -> py_join sep l = Ok (String.concat sep (map text_of l)).
Proof.
  induction l as [| a l IH]; simpl; [reflexivity |].
  intros H. apply andb_true_iff in H as [Ha Hl].
  destruct a as [| | | s | |]; try discriminate Ha.
  destruct l as [| b l]; [reflexivity |].
  rewrite (IH Hl). reflexivity.
Qed.

Lemma extract_artists_fields (d : list (string * json)) :
  let emb := dict_get d "_embedded" in
  falsy_or_dict emb = true ->
  attractions_ok (dict_get (fields_of (py_or emb (JObj []))) "attractions") = true ->
  extract_artists (JObj d) = Ok (artists_of d)
  /\ forallb is_text (artists_of d) = true.
Proof.
  intros emb Hemb Hatts.
  unfold extract_artists, attraction_names, attractions, artists_of. simpl.
  fold emb. rewrite (py_get_falsy_or_dict emb "attractions" Hemb). simpl.
  unfold attractions_ok in Hatts. unfold items_of.
  destruct (py_or (dict_get (fields_of (py_or emb (JObj []))) "attractions") (JArr []))
    as [| b | n | s | items | f] eqn:E; try discriminate Hatts; simpl.
  - rewrite comprehension_ok. simpl. rewrite collected_chars. simpl. auto.
  - rewrite comprehension_ok. simpl.
    pose proof (collected_text items Hatts) as Ht.
    rewrite (first_seen_loop_spec _ (text_hashable _ Ht)). simpl.
    rewrite filter_all.
    + split; [reflexivity | apply first_seen_text; exact Ht].
    + apply forallb_forall. intros m _. unfold in_seen.
      destruct (py_hash m); reflexivity.
  - rewrite comprehension_ok. simpl. rewrite collected_keys. simpl. auto.
Qed.

(** On a well-shaped event the normaliser returns, and returns [flat_row]. *)
Lemma normalize_row_well_shaped (d : list (string * json)) :
  well_shaped (JObj d) = true -> normalize_row (JObj d) = Ok (flat_row d).
Proof.
  simpl. intros H.
  repeat match type of H with _ && _ = true => apply andb_true_iff in H as [H ?] end.
  rename H into Hemb.
  match goal with H : venues_ok _ = true |- _ => rename H into Hven end.
  match goal with H : attractions_ok _ = true |- _ => rename H into Hatt end.
  match goal with H : classifications_ok _ = true |- _ => rename H into Hcls end.
  match goal with H : dates_ok _ = true |- _ => rename H into Hdat end.
  destruct (extract_artists_fields d Hemb Hatt) as [Hart Htext].
  unfold normalize_row, flat_row. rewrite Hart. simpl py_get. simpl bind.
  rewrite (py_get_falsy_or_dict _ "venues" Hemb). simpl bind.
  unfold venues_ok in Hven.
  set (venues := py_or (dict_get (fields_of (py_or (dict_get d "_embedded") (JObj []))) "venues")
                       (JArr [JObj []])) in *.
  destruct venues as [| | | | [| [| | | | | v] ?] |]; try discriminate Hven.
  apply andb_true_iff in Hven as [Hcity Hcountry].
  unfold classifications_ok in Hcls.
  set (cls_list := py_or (dict_get d "classifications") (JArr [JObj []])) in *.
  destruct cls_list as [| | | | [| [| | | | | cls] ?] |]; try discriminate Hcls.
  apply andb_true_iff in Hcls as [Hgenre Hsub].
  unfold dates_ok in Hdat. apply andb_true_iff in Hdat as [Hdates Hstart].
  simpl.
  rewrite (py_get_falsy_or_dict _ "name" Hgenre). simpl.
  rewrite (py_get_falsy_or_dict _ "name" Hsub). simpl.
  rewrite (py_get_falsy_or_dict _ "start" Hdates). simpl.
  rewrite (py_get_falsy_or_dict _ "localDate" Hstart). simpl.
  rewrite (py_get_falsy_or_dict _ "localTime" Hstart). simpl.
  rewrite (py_get_falsy_or_dict _ "name" Hcity). simpl.
  rewrite (py_get_falsy_or_dict _ "name" Hcountry). simpl.
  unfold joined.
  destruct (artists_of d) as [| art arts] eqn:Ea; [reflexivity |].
  rewrite (py_join_text "; " (art :: arts) Htext). reflexivity.
Qed.

Lemma py_join_ok (sep : string) (l : list json) (s : string) :
  py_join sep l = Ok s -> s = String.concat sep (map text_of l).
Proof.
  revert s. induction l as [| a l IH]; simpl; intros s H.
  - injection H as <-. reflexivity.
  - destruct a as [| | | t | |]; try discriminate H.
    destruct l as [| b l].
    + injection H as <-. reflexivity.
    + apply bind_ok in H as (u & Hu & H). injection H as <-.
      rewrite (IH u Hu). reflexivity.
Qed.

(** Every row the normaliser returns is the display of the twelve fields,
    with the artist fields computed from [extract_artists]. *)
Lemma normalize_row_ok (e : json) (r : row) :
  normalize_row e = Ok r ->
  map fst r = headers
  /\ exists artists,
       extract_artists e = Ok artists
       /\ dict_get r "artist_primary" = hd JNull artists
       /\ dict_get r "artists" = joined artists.
Proof.
  unfold normalize_row. intros H. bind_inv.
  injection H as <-. split; [reflexivity |].
  match goal with
  | Hx : extract_artists e = Ok ?l,
    Hj : match ?l with [] => _ | _ :: _ => _ end = Ok _ |- _ =>
      exists l; split; [exact Hx |];
      destruct l as [| art arts]; cbv iota in Hj;
      [ injection Hj as <-
      | apply bind_ok in Hj as (s & Hs & Hj); injection Hj as <-;
        apply py_join_ok in Hs; rewrite Hs ]
  end; split; reflexivity.
Qed.

(** *** The normaliser returns only on well-shaped events *)

Lemma py_get_or_dict_inv (x : json) (k : string) (v : json) :
  py_get (py_or x (JObj [])) k = Ok v ->
  falsy_or_dict x = true /\ v = dict_get (fields_of (py_or x (JObj []))) k.
Proof.
  unfold falsy_or_dict, py_or. destruct (truthy x) eqn:T; simpl; intros H.
  - destruct x; try discriminate H. injection H as <-. split; reflexivity.
  - injection H as <-. split; reflexivity.
Qed.

Lemma first_or_default_inv (x first : json) (k : string) (v : json) :
  (if truthy (py_or x (JArr [JObj []])) then py_first (py_or x (JArr [JObj []]))
   else Ok (JObj [])) = Ok first ->
  py_get first k = Ok v ->
  exists d rest, py_or x (JArr [JObj []]) = JArr (JObj d :: rest) /\ first = JObj d.
Proof.
  intros H Hget.
  assert (T : truthy (py_or x (JArr [JObj []])) = true).
  { unfold py_or. destruct (truthy x) eqn:E; [exact E | reflexivity]. }
  rewrite T in H.
  destruct (py_or x (JArr [JObj []])) as [| | | [| c s] | [| a l] |]; try discriminate H.
  - injection H as <-. discriminate Hget.
  - injection H as <-. destruct a; try discriminate Hget. eauto.
Qed.

Lemma py_join_ok_text (sep : string) (l : list json) (s : string) :
  py_join sep l = Ok s -> forallb is_text l = true.
Proof.
  revert s. induction l as [| a l IH]; simpl; intros s H; [reflexivity |].
  destruct a as [| | | t | |]; try discriminate H.
  destruct l as [| b l]; [reflexivity |].
  apply bind_ok in H as (u & Hu & _). exact (IH u Hu).
Qed.

Lemma first_seen_loop_keeps_out (names : list json) :
  forall seen out res,
    first_seen_loop names seen out = Ok res -> incl out res.
Proof.
  induction names as [| n rest IH]; simpl; intros seen out res H.
  - injection H as <-. apply incl_refl.
  - apply bind_ok in H as (k & _ & H).
    destruct (key_mem k seen).
    + exact (IH _ _ _ H).
    + apply IH in H. intros x Hx. apply H. apply in_or_app. left. exact Hx.
Qed.

Lemma py_hash_text (n : json) (s : string) : py_hash n = Ok (KStr s) -> n = JStr s.
Proof.
  destruct n as [| b | z | t | l | d]; simpl; intros H; try discriminate H.
  injection H as ->. reflexivity.
Qed.

(** When the loop returns only strings, every name it read was a string:
    a name is either appended, or equal to one already appended. *)
Lemma first_seen_loop_text (names : list json) :
  forall seen out res,
    first_seen_loop names seen out = Ok res ->
    (forall k, key_mem k seen = true -> exists m, In m out /\ py_hash m = Ok k) ->
    forallb is_text res = true ->
    forallb is_text names = true.
Proof.
  induction names as [| n rest IH]; simpl; intros seen out res H Hseen Htext;
    [reflexivity |].
  apply bind_ok in H as (k & Hk & H).
  destruct (key_mem k seen) eqn:Hmem.
  - rewrite (IH _ _ _ H Hseen Htext), andb_true_r.
    destruct (Hseen k Hmem) as (m & Hm & Hmk).
    apply first_seen_loop_keeps_out in H.
    rewrite forallb_forall in Htext. specialize (Htext m (H m Hm)).
    destruct m; try discriminate Htext. simpl in Hmk. injection Hmk as <-.
    rewrite (py_hash_text n _ Hk). reflexivity.
  - assert (Hn : is_text n = true).
    { apply first_seen_loop_keeps_out in H.
      rewrite forallb_forall in Htext. apply Htext, H, in_or_app. right. left. reflexivity. }
    rewrite Hn. simpl. apply (IH _ _ _ H); [| exact Htext].
    intros k' Hk'. simpl in Hk'. apply orb_true_iff in Hk' as [E | Hk'].
    + apply pykey_eqb_eq in E. subst k'. exists n. split; [| exact Hk].
      apply in_or_app. right. left. reflexivity.
    + destruct (Hseen k' Hk') as (m & Hm & Hmk). exists m. split; [| exact Hmk].
      apply in_or_app. left. exact Hm.
Qed.

Lemma collected_text_inv (items : list json) :
  forallb is_text (collected items) = true -> forallb attraction_ok items = true.
Proof.
  induction items as [| a items IH]; simpl; [reflexivity |].
  destruct a as [| b | n | s | l | d]; simpl; auto.
  destruct (truthy (dict_get d "name")); simpl; auto.
  intros H. apply andb_true_iff in H as [Ha Hr]. rewrite Ha. auto.
Qed.

Lemma extract_artists_inv (d : list (string * json)) (artists : list json) :
  let emb := dict_get d "_embedded" in
  extract_artists (JObj d) = Ok artists ->
  forallb is_text artists = true ->
  attractions_ok (dict_get (fields_of (py_or emb (JObj []))) "attractions") = true.
Proof.
  intros emb H Htext.
  unfold extract_artists, attraction_names, attractions in H. simpl in H. fold emb in H.
  bind_inv.
  repeat match goal with
         | Hx : Ok _ = Ok _ |- _ => injection Hx as <-
         end.
  match goal with
  | Hg : py_get (py_or emb (JObj [])) "attractions" = Ok _ |- _ =>
      apply py_get_or_dict_inv in Hg as [_ ->]
  end.
  unfold attractions_ok.
  match goal with
  | Hi : py_iter ?x = Ok ?items |- _ =>
      destruct x as [| b | n | s | items' |]; try discriminate Hi; try reflexivity;
      injection Hi as <-
  end.
  match goal with
  | Hm : map_result _ _ = Ok _ |- _ =>
      rewrite comprehension_ok in Hm; injection Hm as <-
  end.
  apply collected_text_inv.
  eapply first_seen_loop_text; [eassumption | | exact Htext].
  intros k Hk. discriminate Hk.
Qed.

Lemma normalize_row_shape (e : json) (r : row) :
  normalize_row e = Ok r -> well_shaped e = true.
Proof.
  unfold normalize_row. intros H. bind_inv. clear H.
  match goal with
  | Hfirst : (if truthy (py_or _ _) then _ else _) = Ok ?v, Hcity : py_get ?v "city" = Ok _ |- _ =>
      destruct (first_or_default_inv _ _ _ _ Hfirst Hcity) as (vd & vrest & Hv & ->)
  end.
  match goal with
  | Hfirst : (if truthy (py_or _ _) then _ else _) = Ok ?c, Hg : py_get ?c "genre" = Ok _ |- _ =>
      destruct (first_or_default_inv _ _ _ _ Hfirst Hg) as (cd & crest & Hc & ->)
  end.
  match goal with
  | He : py_get e "_embedded" = Ok _ |- _ =>
      destruct (py_get_ok _ _ _ He) as (d & -> & ->)
  end.
  repeat match goal with
         | Hx : py_get (JObj _) _ = Ok _ |- _ => simpl in Hx; injection Hx as <-
         end.
  repeat match goal with
         | Hx : py_get (py_or _ (JObj [])) _ = Ok _ |- _ =>
             apply py_get_or_dict_inv in Hx as [? ->]
         end.
  match goal with
  | Hx : extract_artists _ = Ok ?l |- _ =>
      assert (Htext : forallb is_text l = true);
      [ destruct l as [| art arts]; [reflexivity |];
        match goal with
        | Hj : bind (py_join _ _) _ = Ok _ |- _ =>
            apply bind_ok in Hj as (s & Hs & _); exact (py_join_ok_text _ _ _ Hs)
        end
      | pose proof (extract_artists_inv _ _ Hx Htext) as Hatt ]
  end.
  simpl. unfold venues_ok, classifications_ok, dates_ok.
  rewrite Hv, Hc, Hatt.
  repeat match goal with
         | Hx : falsy_or_dict _ = true |- _ => rewrite Hx; clear Hx
         end.
  reflexivity.
Qed.

(* ===================================================================== *)
(** ** Claims about the record normaliser *)
(* ===================================================================== *)

(** C1. The end-to-end example: with the API returning the single example
    event, no region pass, the default allow-list and an empty block-list,
    the run sends one request, and the file holds the header row and one
    data row whose CSV text is
    [E1,Show,2025-11-01,20:00:00,Tel Aviv,Israel,Hall,Rock,,Band A,Band A,http://x]. *)
Theorem end_to_end_example :
  program example_api (Some "key") example_args initial_world
  = (Ok tt,
     mkworld [ mkreq "music" "2025-10-01T00:00:00Z" "2026-07-01T23:59:59Z" 200 0 "key" None ]
             (Some ("world_music_events.csv", [map JStr headers; example_cells])))
  /\ normalize_row example_event = Ok example_row
  /\ deduplicate [example_row] [] = Ok [example_row]
  /\ filter_by_countries [example_row] (labels DEFAULT_ALLOWED) (labels []) = Ok [example_row]
  /\ dict_to_list headers example_row = Ok example_cells
  /\ csv_line example_cells
     = Some "E1,Show,2025-11-01,20:00:00,Tel Aviv,Israel,Hall,Rock,,Band A,Band A,http://x".
Proof. repeat split; vm_compute; reflexivity. Qed.

(** C2. An event that has an identifier and lacks every optional nested
    field (no [_embedded], [classifications], [dates], [name], [url]: the
    key is missing or null) is normalised without an exception to the row
    whose [event_id] is the identifier and whose eleven other fields are
    [None]. *)
Theorem normalize_row_minimal_event (d : list (string * json)) (id : json) :
  dict_lookup "id" d = Some id ->
  dict_get d "_embedded" = JNull ->
  dict_get d "classifications" = JNull ->
  dict_get d "dates" = JNull ->
  dict_get d "name" = JNull ->
  dict_get d "url" = JNull ->
  normalize_row (JObj d)
  = Ok [ ("event_id", id); ("event_name", JNull); ("local_date", JNull);
         ("local_time", JNull); ("city", JNull); ("country", JNull);
         ("venue_name", JNull); ("genre_name", JNull); ("subgenre_name", JNull);
         ("artist_primary", JNull); ("artists", JNull); ("url", JNull) ].
Proof.
  intros Hid Hemb Hcls Hdates Hname Hurl.
  rewrite normalize_row_well_shaped.
  - unfold flat_row, artists_of, name_under.
    rewrite Hemb, Hcls, Hdates, Hname, Hurl. simpl.
    unfold dict_get at 1. rewrite Hid. reflexivity.
  - simpl. rewrite Hemb, Hcls, Hdates. reflexivity.
Qed.

Lemma normalize_row_minimal_event_witness :
  normalize_row (JObj [("id", JStr "E1")])
  = Ok [ ("event_id", JStr "E1"); ("event_name", JNull); ("local_date", JNull);
         ("local_time", JNull); ("city", JNull); ("country", JNull);
         ("venue_name", JNull); ("genre_name", JNull); ("subgenre_name", JNull);
         ("artist_primary", JNull); ("artists", JNull); ("url", JNull) ].
Proof.
  apply (normalize_row_minimal_event [("id", JStr "E1")] (JStr "E1")); reflexivity.
Defined.

(** C7. Artist extraction keeps the first occurrence of every attraction
    name, in order: on hashable names it returns [first_seen names], a list
    without repetition; it returns [names] itself when they are free of
    duplicates, and de-duplicating twice changes nothing.  In every row the
    normaliser returns, the primary artist is the first extracted name (or
    [None]) and the joined field is the names separated by a semicolon and a
    space (or [None]); the normaliser returns on every well-shaped event. *)
Theorem extract_artists_first_seen (e : json) (names : list json) :
  attraction_names e = Ok names ->
  forallb hashable names = true ->
  extract_artists e = Ok (first_seen names)
  /\ no_repeat (first_seen names) = true
  /\ (no_repeat names = true -> extract_artists e = Ok names)
  /\ first_seen (first_seen names) = first_seen names
  /\ (forall r, normalize_row e = Ok r ->
        dict_get r "artist_primary" = hd JNull (first_seen names)
        /\ dict_get r "artists" = joined (first_seen names))
  /\ (well_shaped e = true -> exists r, normalize_row e = Ok r).
Proof.
  intros Hnames Hhash.
  assert (Hex : extract_artists e = Ok (first_seen names)).
  { unfold extract_artists. rewrite Hnames. simpl.
    rewrite (first_seen_loop_spec names Hhash). simpl.
    rewrite filter_all; [reflexivity |].
    apply forallb_forall. intros m _. unfold in_seen.
    destruct (py_hash m); reflexivity. }
  split; [exact Hex |].
  split; [apply first_seen_no_repeat_out; exact Hhash |].
  split; [intros Hnr; rewrite Hex, (first_seen_no_repeat names Hnr); reflexivity |].
  split; [apply first_seen_idempotent |].
  split.
  - intros r Hr. apply normalize_row_ok in Hr as (_ & artists & Ha & Hp & Hj).
    rewrite Hex in Ha. injection Ha as <-. split; assumption.
  - intros Hw. destruct e as [| | | | | d]; try discriminate Hw.
    exists (flat_row d). apply normalize_row_well_shaped. exact Hw.
Qed.

Lemma extract_artists_first_seen_witness :
  extract_artists repeated_band_event = Ok [JStr "A"; JStr "B"]
  /\ (forall r, normalize_row repeated_band_event = Ok r ->
        dict_get r "artist_primary" = JStr "A" /\ dict_get r "artists" = JStr "A; B").
Proof.
  pose proof (extract_artists_first_seen repeated_band_event
                [JStr "A"; JStr "B"; JStr "A"] eq_refl eq_refl)
    as (H1 & _ & _ & _ & H5 & _).
  split; [exact H1 | exact H5].
Defined.

(** C9 (amended). Every row the normaliser returns has exactly the twelve
    keys of the CSV header, in header order; and the normaliser returns a
    row exactly on the well-shaped events. *)
Theorem normalize_row_keys (e : json) :
  (forall r, normalize_row e = Ok r -> map fst r = headers)
  /\ ((exists r, normalize_row e = Ok r) <-> well_shaped e = true).
Proof.
  split; [| split].
  - intros r Hr. apply normalize_row_ok in Hr. apply Hr.
  - intros [r Hr]. exact (normalize_row_shape e r Hr).
  - intros Hw. destruct e as [| | | | | d]; try discriminate Hw.
    exists (flat_row d). apply normalize_row_well_shaped. exact Hw.
Qed.

Lemma normalize_row_keys_witness :
  exists r, normalize_row example_event = Ok r.
Proof. apply (proj2 (proj2 (normalize_row_keys example_event))). reflexivity. Defined.

(** C9 as stated fails: an event whose [_embedded] is a string makes the
    normaliser raise [AttributeError], so no record is returned. *)
Lemma normalize_row_raises_on_odd_shape :
  normalize_row (JObj [("id", JStr "E1"); ("_embedded", JStr "x")]) = Raise AttributeError
  /\ ~ (forall e, exists r, normalize_row e = Ok r /\ map fst r = headers).
Proof.
  split; [reflexivity |].
  intros H. destruct (H (JObj [("id", JStr "E1"); ("_embedded", JStr "x")])) as (r & Hr & _).
  discriminate Hr.
Qed.

(* ===================================================================== *)
(** ** De-duplication *)
(* ===================================================================== *)

Lemma last_opt_app {A : Type} (l : list A) (a : A) : last_opt (l ++ [a]) = Some a.
Proof. induction l as [| b l IH]; simpl; [reflexivity | rewrite IH; reflexivity]. Qed.

Lemma last_opt_cons {A : Type} (a : A) (l : list A) :
  last_opt (a :: l) = match last_opt l with Some b => Some b | None => Some a end.
Proof. reflexivity. Qed.

Lemma find_key_none (k : pykey) (c : list (pykey * row)) :
  find_key k c = None <-> ~ In k (map fst c).
Proof.
  induction c as [| [k' r] c IH]; simpl.
  - split; [intros _ [] | reflexivity].
  - destruct (pykey_eqb k k') eqn:E.
    + apply pykey_eqb_eq in E. subst. split; [discriminate | intros H; exfalso; auto].
    + rewrite IH. split.
      * intros H [H' | H']; [subst; rewrite pykey_eqb_refl in E; discriminate E | auto].
      * intros H H'. apply H. right. exact H'.
Qed.

Lemma dict_set_keys (k : pykey) (r : row) (c : list (pykey * row)) :
  map fst (dict_set pykey_eqb k r c)
  = match find_key k c with Some _ => map fst c | None => map fst c ++ [k] end.
Proof.
  induction c as [| [k' r'] c IH]; simpl; [reflexivity |].
  destruct (pykey_eqb k k'); simpl; [reflexivity |].
  rewrite IH. destruct (find_key k c); reflexivity.
Qed.

Lemma find_key_dict_set (k k' : pykey) (r : row) (c : list (pykey * row)) :
  find_key k (dict_set pykey_eqb k' r c)
  = if pykey_eqb k k' then Some r else find_key k c.
Proof.
  induction c as [| [k0 r0] c IH]; simpl; [reflexivity |].
  destruct (pykey_eqb k' k0) eqn:E; simpl.
  - apply pykey_eqb_eq in E. subst k0. destruct (pykey_eqb k k'); reflexivity.
  - rewrite IH. destruct (pykey_eqb k k0) eqn:E0; [| reflexivity].
    apply pykey_eqb_eq in E0. subst k0.
    rewrite pykey_eqb_sym, E. reflexivity.
Qed.

Lemma dict_set_ok (k : pykey) (r : row) (c : list (pykey * row)) :
  row_key r = Ok k -> combined_ok c -> combined_ok (dict_set pykey_eqb k r c).
Proof.
  intros Hk [Hnd Hall]. split.
  - rewrite dict_set_keys. destruct (find_key k c) eqn:F; [exact Hnd |].
    apply find_key_none in F.
    apply NoDup_app; [exact Hnd | repeat constructor; intros [] | ].
    intros x Hx [<- | []]. exact (F Hx).
  - clear Hnd. induction c as [| [k' r'] c IH]; simpl.
    + repeat constructor. exact Hk.
    + inversion Hall as [| ? ? Hhd Htl]; subst.
      destruct (pykey_eqb k k') eqn:E.
      * apply pykey_eqb_eq in E. subst k'. constructor; [exact Hk | exact Htl].
      * constructor; [exact Hhd | apply IH; exact Htl].
Qed.

(** In a well-formed [combined], the rows of key [k] are the one stored
    under [k], if any. *)
Lemma values_of_key (k : pykey) (c : list (pykey * row)) :
  combined_ok c -> filter (has_key k) (map snd c) = opt_list (find_key k c).
Proof.
  intros [Hnd Hall]. induction c as [| [k' r] c IH]; simpl; [reflexivity |].
  inversion Hnd as [| ? ? Hnotin Hnd']; subst.
  inversion Hall as [| ? ? Hhd Htl]; subst. simpl in Hhd.
  unfold has_key at 1. rewrite Hhd.
  destruct (pykey_eqb k k') eqn:E.
  - apply pykey_eqb_eq in E. subst k'. simpl. f_equal.
    rewrite (IH Hnd' Htl).
    apply find_key_none in Hnotin. rewrite Hnotin. reflexivity.
  - apply IH; assumption.
Qed.

Lemma combine_loop_spec (rows : list row) :
  forall c c',
    combine_loop rows c = Ok c' ->
    combined_ok c ->
    combined_ok c'
    /\ forall k, find_key k c'
                 = match last_opt (filter (has_key k) rows) with
                   | Some r => Some r
                   | None => find_key k c
                   end.
Proof.
  induction rows as [| r rows IH]; simpl; intros c c' H Hc.
  - injection H as <-. split; [exact Hc | reflexivity].
  - apply bind_ok in H as (id & Hid & H). apply bind_ok in H as (k0 & Hk0 & H).
    assert (Hkey : row_key r = Ok k0) by (unfold row_key; rewrite Hid; exact Hk0).
    destruct (IH _ _ H (dict_set_ok k0 r c Hkey Hc)) as [Hok Hfind].
    split; [exact Hok |].
    intros k. rewrite Hfind, find_key_dict_set.
    unfold has_key at 2. rewrite Hkey.
    destruct (pykey_eqb k k0); simpl;
      destruct (last_opt (filter (has_key k) rows)); reflexivity.
Qed.

Lemma combine_loop_total (rows : list row) :
  forallb keyed rows = true ->
  forall c, exists c', combine_loop rows c = Ok c'.
Proof.
  induction rows as [| r rows IH]; simpl; intros H c.
  - exists c. reflexivity.
  - apply andb_true_iff in H as [Hr Hrows].
    unfold keyed, row_key in Hr.
    destruct (row_item r "event_id") as [id |]; [| discriminate Hr]. simpl in Hr |- *.
    destruct (py_hash id) as [k |]; [| discriminate Hr]. simpl.
    apply IH. exact Hrows.
Qed.

(** De-duplication keeps, for every key, the last row of that key. *)
Lemma deduplicate_spec (world_rows il_rows : list row) :
  forallb keyed (world_rows ++ il_rows) = true ->
  exists all_rows,
    deduplicate world_rows il_rows = Ok all_rows
    /\ forall k, filter (has_key k) all_rows
                 = opt_list (last_opt (filter (has_key k) (world_rows ++ il_rows))).
Proof.
  intros Hk. destruct (combine_loop_total _ Hk []) as [c Hc].
  assert (Hnil : combined_ok []) by (split; constructor).
  destruct (combine_loop_spec _ _ _ Hc Hnil) as [Hok Hfind].
  exists (map snd c). unfold deduplicate. rewrite Hc. split; [reflexivity |].
  intros k. rewrite (values_of_key k c Hok), Hfind. simpl.
  destruct (last_opt (filter (has_key k) (world_rows ++ il_rows))); reflexivity.
Qed.

Lemma same_id_has_key (r : row) (k : pykey) :
  row_key r = Ok k -> forall x, same_id r x = has_key k x.
Proof. intros H x. unfold same_id. rewrite H. reflexivity. Qed.

(** C3. De-duplication by identifier is last-write-wins with the region
    scope written last: when every row has a hashable identifier, the merge
    returns; no identifier occurs twice in the merged collection; and for a
    region-scope row [r] that is the region scope's version of its
    identifier (no later region row shares it), the merged rows with that
    identifier are exactly [r], whatever the global scope held for it. *)
Theorem region_scope_wins (world_rows il_rows : list row) :
  forallb keyed (world_rows ++ il_rows) = true ->
  exists all_rows,
    deduplicate world_rows il_rows = Ok all_rows
    /\ (forall k, length (filter (has_key k) all_rows) <= 1)
    /\ (forall before r after,
          il_rows = before ++ r :: after ->
          existsb (same_id r) after = false ->
          filter (same_id r) all_rows = [r]).
Proof.
  intros Hk. destruct (deduplicate_spec _ _ Hk) as (all_rows & Hd & Hspec).
  exists all_rows. split; [exact Hd |]. split.
  - intros k. rewrite Hspec. destruct (last_opt _); simpl; lia.
  - intros before r after Hil Hlast.
    assert (Hr : keyed r = true).
    { rewrite forallb_forall in Hk. apply Hk. subst il_rows.
      apply in_or_app. right. apply in_or_app. right. left. reflexivity. }
    unfold keyed in Hr. destruct (row_key r) as [k |] eqn:Hkey; [| discriminate Hr].
    rewrite (filter_ext_in_bool _ (has_key k)); [| intros x _; apply same_id_has_key; exact Hkey].
    rewrite Hspec. subst il_rows.
    rewrite !filter_app. simpl. unfold has_key at 3. rewrite Hkey, pykey_eqb_refl.
    assert (Hafter : filter (has_key k) after = []).
    { clear - Hlast Hkey. induction after as [| x after IH]; simpl in *; [reflexivity |].
      apply orb_false_iff in Hlast as [Hx Hrest].
      rewrite (same_id_has_key r k Hkey) in Hx.
      rewrite Hx. apply IH. exact Hrest. }
    rewrite Hafter, app_assoc, last_opt_app. reflexivity.
Qed.

Lemma region_scope_wins_witness :
  exists all_rows,
    deduplicate [sample_row (JStr "E1") (JStr "Global") (JStr "Israel")]
                [sample_row (JStr "E1") (JStr "Region") (JStr "Israel")]
    = Ok all_rows
    /\ filter (same_id (sample_row (JStr "E1") (JStr "Region") (JStr "Israel"))) all_rows
       = [sample_row (JStr "E1") (JStr "Region") (JStr "Israel")].
Proof.
  destruct (region_scope_wins
              [sample_row (JStr "E1") (JStr "Global") (JStr "Israel")]
              [sample_row (JStr "E1") (JStr "Region") (JStr "Israel")] eq_refl)
    as (all_rows & Hd & _ & Hlast).
  exists all_rows. split; [exact Hd |].
  apply (Hlast [] (sample_row (JStr "E1") (JStr "Region") (JStr "Israel")) []); reflexivity.
Defined.

Lemma id_absent_has_key (r : row) : id_absent r = has_key KNone r.
Proof.
  unfold id_absent, has_key, row_key, row_item.
  destruct (dict_lookup "event_id" r) as [[| [|] | n | s | l | d] |]; reflexivity.
Qed.

(** C10. Rows without an identifier share the single key [None]: when
    every row has a hashable identifier, the merged collection holds at most
    one row whose identifier is absent, and it is the last such row of the
    global list followed by the region list; every earlier one is gone. *)
Theorem absent_identifier_collapses (world_rows il_rows : list row) :
  forallb keyed (world_rows ++ il_rows) = true ->
  exists all_rows,
    deduplicate world_rows il_rows = Ok all_rows
    /\ filter id_absent all_rows
       = opt_list (last_opt (filter id_absent (world_rows ++ il_rows)))
    /\ length (filter id_absent all_rows) <= 1.
Proof.
  intros Hk. destruct (deduplicate_spec _ _ Hk) as (all_rows & Hd & Hspec).
  exists all_rows. split; [exact Hd |].
  assert (Heq : filter id_absent all_rows
                = opt_list (last_opt (filter id_absent (world_rows ++ il_rows)))).
  { rewrite (filter_ext_in_bool id_absent (has_key KNone) all_rows)
      by (intros; apply id_absent_has_key).
    rewrite (filter_ext_in_bool id_absent (has_key KNone) (world_rows ++ il_rows))
      by (intros; apply id_absent_has_key).
    apply Hspec. }
  split; [exact Heq |].
  rewrite Heq. destruct (last_opt _); simpl; lia.
Qed.

Lemma absent_identifier_collapses_witness :
  exists all_rows,
    deduplicate [ sample_row JNull (JStr "first") JNull;
                  sample_row (JStr "E1") (JStr "kept") JNull ]
                [ sample_row JNull (JStr "second") JNull ]
    = Ok all_rows
    /\ filter id_absent all_rows = [sample_row JNull (JStr "second") JNull].
Proof.
  destruct (absent_identifier_collapses
              [ sample_row JNull (JStr "first") JNull;
                sample_row (JStr "E1") (JStr "kept") JNull ]
              [ sample_row JNull (JStr "second") JNull ] eq_refl)
    as (all_rows & Hd & Hf & _).
  exists all_rows. split; [exact Hd | exact Hf].
Defined.

Example deduplicate_absent_ids :
  deduplicate [ sample_row JNull (JStr "first") JNull;
                sample_row (JStr "E1") (JStr "kept") JNull ]
              [ sample_row JNull (JStr "second") JNull ]
  = Ok [ sample_row JNull (JStr "second") JNull;
         sample_row (JStr "E1") (JStr "kept") JNull ].
Proof. reflexivity. Qed.

(* ===================================================================== *)
(** ** Country filter *)
(* ===================================================================== *)

Lemma filter_loop_spec (allowed blocked : option (list (option string))) (rows : list row) :
  forallb country_text_ok rows = true ->
  forall out,
    filter_loop (label_set allowed) (label_set blocked) rows out
    = Ok (out ++ filter (retained allowed blocked) rows).
Proof.
  induction rows as [| r rows IH]; simpl; intros H out.
  - rewrite app_nil_r. reflexivity.
  - apply andb_true_iff in H as [Hr Hrows].
    assert (Hc : py_strip (py_or (dict_get r "country") (JStr ""))
                 = Ok (strip (text_of (py_or (dict_get r "country") (JStr ""))))).
    { unfold country_text_ok in Hr. unfold py_or.
      destruct (truthy (dict_get r "country")); simpl in Hr |- *; [| reflexivity].
      destruct (dict_get r "country"); try discriminate Hr. reflexivity. }
    rewrite Hc. simpl. unfold retained at 1. fold (country_label r).
    destruct (set_truthy (label_set allowed)) eqn:Ea;
      destruct (str_mem (country_label r) (label_set allowed)) eqn:Ma; simpl;
      try (rewrite (IH Hrows); reflexivity);
      destruct (set_truthy (label_set blocked)) eqn:Eb;
      destruct (str_mem (country_label r) (label_set blocked)) eqn:Mb; simpl;
      rewrite (IH Hrows); try reflexivity;
      try (rewrite <- app_assoc; reflexivity).
    all: destruct (label_set blocked); simpl in Eb, Mb; discriminate.
Qed.

(** C6 (amended). On rows whose country is a string or absent, the filter
    returns the rows it retains, in order: a row is retained when its
    country label (the country, absent read as empty, trimmed and
    lower-cased) is in the lower-cased allow-list or no allow-list is
    active, and is not in the lower-cased block-list.  With allow-list
    {Canada} exactly the rows labelled canada are retained; with no
    allow-list and block-list {France} exactly the rows labelled france are
    dropped. *)
Theorem country_filter_spec (rows : list row) (allowed blocked : option (list (option string))) :
  forallb country_text_ok rows = true ->
  filter_by_countries rows allowed blocked = Ok (filter (retained allowed blocked) rows)
  /\ filter_by_countries rows (Some [Some "Canada"]) None
     = Ok (filter (fun r => String.eqb (country_label r) "canada") rows)
  /\ filter_by_countries rows None (Some [Some "France"])
     = Ok (filter (fun r => negb (String.eqb (country_label r) "france")) rows).
Proof.
  intros H. unfold filter_by_countries. rewrite !filter_loop_spec by exact H. simpl.
  split; [reflexivity |]. split; f_equal; apply filter_ext_in_bool; intros r _;
    unfold retained; simpl; rewrite orb_false_r; try rewrite andb_true_r; reflexivity.
Qed.

Lemma country_filter_spec_witness :
  filter_by_countries sample_rows (Some [Some "Canada"]) None
  = Ok [ sample_row (JStr "E1") JNull (JStr "CANADA");
         sample_row (JStr "E4") JNull (JStr " canada ") ]
  /\ filter_by_countries sample_rows None (Some [Some "France"])
     = Ok [ sample_row (JStr "E1") JNull (JStr "CANADA");
            sample_row (JStr "E3") JNull JNull;
            sample_row (JStr "E4") JNull (JStr " canada ") ].
Proof.
  destruct (country_filter_spec sample_rows None None eq_refl) as (_ & Ha & Hb).
  split; [exact Ha | exact Hb].
Defined.

(** C6 as stated fails in two corners.  A row without country is retained
    under an active allow-list that holds the empty label; and a row whose
    country is padded with a space is retained although, compared without
    regard to case only, it is not in the allow-list. *)
Lemma country_filter_corner_cases :
  (set_truthy (label_set (Some [Some EmptyString])) = true
   /\ filter_by_countries [sample_row (JStr "E1") JNull JNull] (Some [Some EmptyString]) None
      = Ok [sample_row (JStr "E1") JNull JNull])
  /\ (str_mem (lower " Canada") (label_set (Some [Some "Canada"])) = false
      /\ filter_by_countries [sample_row (JStr "E2") JNull (JStr " Canada")]
                             (Some [Some "Canada"]) None
         = Ok [sample_row (JStr "E2") JNull (JStr " Canada")]).
Proof. repeat split. Qed.

(* ===================================================================== *)
(** ** Paginator *)
(* ===================================================================== *)

Section Paginator.

Variable api : request -> result json.
Variables API_KEY segment start_iso end_iso : string.
Variable country_code : option string.

Local Abbreviation scope_request :=
  (scope_request API_KEY segment start_iso end_iso country_code).
Local Abbreviation fetched :=
  (fetched api API_KEY segment start_iso end_iso country_code).
Local Abbreviation after_request :=
  (after_request API_KEY segment start_iso end_iso country_code).

Lemma fetch_events_page_run (p : nat) (w : world) :
  fetch_events_page api API_KEY segment start_iso end_iso p 200 country_code w
  = (fetched p, after_request p w).
Proof.
  unfold fetch_events_page, fetched, io_bind, io_lift, send, after_request. simpl.
  fold (scope_request p). destruct (api (scope_request p)); reflexivity.
Qed.

(** One turn of the [while True] loop. *)
Lemma paginate_loop_step (p : nat) (rows_all : list row) (w : world) :
  paginate_loop api API_KEY segment start_iso end_iso country_code p rows_all w
  = match fetched p with
    | Raise e => (Raise e, after_request p w)
    | Ok ([], _) => (Ok rows_all, after_request p w)
    | Ok (page_rows, has_next) =>
        if negb has_next || (if past_limit p then true else false)
        then (Ok (rows_all ++ page_rows), after_request p w)
        else paginate_loop api API_KEY segment start_iso end_iso country_code
                           (p + 1) (rows_all ++ page_rows) (after_request p w)
    end.
Proof.
  rewrite paginate_loop_equation_1, fetch_events_page_run.
  destruct (fetched p) as [[[| r page_rows] [|]] | e]; simpl; try reflexivity.
  destruct (past_limit p); reflexivity.
Qed.

Lemma after_request_seq (p n : nat) (w : world) :
  mkworld (sent (after_request p w) ++ map scope_request (seq (p + 1) n))
          (file (after_request p w))
  = mkworld (sent w ++ map scope_request (seq p (S n))) (file w).
Proof.
  unfold after_request. simpl. rewrite <- app_assoc, Nat.add_1_r. reflexivity.
Qed.

(** From page [p <= 4] the loop sends the requests of at most [5 - p]
    consecutive pages, and adds at most 200 rows per page when no page is
    larger than that. *)
Lemma paginate_loop_bounded (m : nat) :
  forall p rows_all w,
    p + m = 4 ->
    let run := paginate_loop api API_KEY segment start_iso end_iso country_code
                             p rows_all w in
    exists n,
      1 <= n <= S m
      /\ snd run = mkworld (sent w ++ map scope_request (seq p n)) (file w)
      /\ ((forall q rows_q hn, fetched q = Ok (rows_q, hn) -> length rows_q <= 200) ->
          forall rows, fst run = Ok rows -> length rows <= length rows_all + S m * 200).
Proof.
  induction m as [| m IH]; intros p rows_all w Hp run; subst run;
    rewrite paginate_loop_step;
    destruct (fetched p) as [[page_rows hn] | e] eqn:F.
  all: try (exists 1; split; [lia |]; split;
              [unfold after_request; reflexivity | intros _ rows H; discriminate H]).
  all: destruct page_rows as [| r page_rows];
    [ exists 1; split; [lia |]; split; [reflexivity |];
      intros _ rows H; simpl in H; injection H as <-; lia | ].
  all: destruct hn; simpl negb; simpl orb;
    [ destruct (past_limit p) as [Hle | Hlt] | ].
  all: try (exists 1; split; [lia |]; split; [reflexivity |];
            intros Hsize rows H; simpl in H; injection H as <-;
            rewrite length_app; specialize (Hsize _ _ _ F); lia).
  - exfalso. unfold DEEP_PAGING_LIMIT in Hlt. lia.
  - destruct (IH (p + 1) (rows_all ++ r :: page_rows) (after_request p w)) as (n & Hn & Hw & Hb);
      [lia |].
    exists (S n). split; [lia |]. split.
    + rewrite Hw. apply after_request_seq.
    + intros Hsize rows H. specialize (Hb Hsize rows H).
      rewrite length_app in Hb. specialize (Hsize _ _ _ F). lia.
Qed.

(** C4 (amended). A scope is read in at most five pages, indices 0 to 4,
    whatever totals and next links the API reports; so at most 1000 rows
    are accumulated provided no page holds more than the 200 rows asked
    for. *)
Theorem paginate_at_most_five_pages (w : world) :
  let run := paginate api API_KEY segment start_iso end_iso country_code w in
  exists n,
    1 <= n <= 5
    /\ snd run = mkworld (sent w ++ map scope_request (seq 0 n)) (file w)
    /\ ((forall q rows_q hn, fetched q = Ok (rows_q, hn) -> length rows_q <= 200) ->
        forall rows, fst run = Ok rows -> length rows <= DEEP_PAGING_LIMIT).
Proof.
  intros run.
  destruct (paginate_loop_bounded 4 0 [] w eq_refl) as (n & Hn & Hw & Hb).
  exists n. split; [exact Hn |]. split; [exact Hw |].
  intros Hsize rows H. specialize (Hb Hsize rows H).
  unfold DEEP_PAGING_LIMIT. simpl in Hb. lia.
Qed.

(** From page [p], when the next pages hold the non-empty lists [pages],
    each with a next link, and the page after them is empty, the loop
    returns the rows of [pages] and has asked for nothing beyond the empty
    page. *)
Lemma paginate_loop_empty_page (pages : list (list row)) (hn : bool) :
  forall p rows_all w,
    p + length pages < 5 ->
    (forall j rows, nth_error pages j = Some rows ->
                    rows <> [] /\ fetched (p + j) = Ok (rows, true)) ->
    fetched (p + length pages) = Ok ([], hn) ->
    paginate_loop api API_KEY segment start_iso end_iso country_code p rows_all w
    = (Ok (rows_all ++ concat pages),
       mkworld (sent w ++ map scope_request (seq p (S (length pages)))) (file w)).
Proof.
  induction pages as [| rows pages IH]; intros p rows_all w Hlen Hpages Hlast;
    rewrite paginate_loop_step.
  - simpl in Hlast. rewrite Nat.add_0_r in Hlast. rewrite Hlast.
    simpl. rewrite app_nil_r. reflexivity.
  - destruct (Hpages 0 rows eq_refl) as [Hne Hfetch].
    rewrite Nat.add_0_r in Hfetch. rewrite Hfetch.
    destruct rows as [| r rows]; [contradiction Hne; reflexivity |].
    simpl negb. simpl orb. simpl in Hlen.
    destruct (past_limit p) as [Hle | Hlt];
      [exfalso; unfold DEEP_PAGING_LIMIT in Hle; lia |].
    rewrite IH.
    + rewrite after_request_seq. simpl. rewrite <- app_assoc. reflexivity.
    + lia.
    + intros j rows' Hj. replace (p + 1 + j) with (p + S j) by lia.
      apply Hpages. exact Hj.
    + replace (p + 1 + length pages) with (p + length (rows :: pages)) by (simpl; lia).
      exact Hlast.
Qed.

(** C5. When pages 0 to k-1 hold rows and report a next page, and page k
    holds no row, then whether or not page k reports a next page the
    paginator returns exactly the rows of pages 0 to k-1 and its last
    request is the one for page k. *)
Theorem paginate_stops_at_empty_page (pages : list (list row)) (hn : bool) (w : world) :
  length pages < 5 ->
  (forall j rows, nth_error pages j = Some rows ->
                  rows <> [] /\ fetched j = Ok (rows, true)) ->
  fetched (length pages) = Ok ([], hn) ->
  paginate api API_KEY segment start_iso end_iso country_code w
  = (Ok (concat pages),
     mkworld (sent w ++ map scope_request (seq 0 (S (length pages)))) (file w)).
Proof.
  intros Hlen Hpages Hlast. unfold paginate.
  rewrite (paginate_loop_empty_page pages hn 0 [] w); auto.
Qed.

End Paginator.

(** C4 as stated fails: the guard counts pages, not rows.  A single page
    of 1001 events is accumulated whole. *)
Lemma paginate_exceeds_limit :
  (exists rows w',
      paginate oversized_api "key" "music" "s" "e" None initial_world = (Ok rows, w')
      /\ length rows = 1001)
  /\ ~ (forall api key seg s e cc w rows w',
          paginate api key seg s e cc w = (Ok rows, w') ->
          length rows <= DEEP_PAGING_LIMIT).
Proof.
  assert (H : exists rows w',
             paginate oversized_api "key" "music" "s" "e" None initial_world = (Ok rows, w')
             /\ length rows = 1001).
  { exists (repeat (flat_row []) 1001).
    exists (mkworld [mkreq "music" "s" "e" 200 0 "key" None] None).
    split; vm_compute; reflexivity. }
  split; [exact H |].
  destruct H as (rows & w' & Hrun & Hlen). intros Hclaim.
  specialize (Hclaim _ _ _ _ _ _ _ _ _ Hrun).
  rewrite Hlen in Hclaim. unfold DEEP_PAGING_LIMIT in Hclaim. lia.
Qed.

(** The bound is reached: five full pages give 1000 rows, and page 5 is
    not asked for. *)
Example paginate_full_pages :
  paginate full_pages_api "key" "music" "s" "e" None initial_world
  = (Ok (repeat (flat_row []) 1000),
     mkworld (map (scope_request "key" "music" "s" "e" None) (seq 0 5)) None).
Proof. vm_compute. reflexivity. Qed.

Lemma paginate_at_most_five_pages_witness :
  exists n,
    1 <= n <= 5
    /\ snd (paginate example_api "key" "music" "s" "e" None initial_world)
       = mkworld (map (scope_request "key" "music" "s" "e" None) (seq 0 n)) None
    /\ forall rows,
         fst (paginate example_api "key" "music" "s" "e" None initial_world) = Ok rows ->
         length rows <= DEEP_PAGING_LIMIT.
Proof.
  destruct (paginate_at_most_five_pages example_api "key" "music" "s" "e" None initial_world)
    as (n & Hn & Hw & Hb).
  exists n. split; [exact Hn |]. split; [exact Hw |].
  apply Hb. intros q rows_q hn H. vm_compute in H. injection H as <- _. simpl. lia.
Defined.

Lemma paginate_stops_at_empty_page_witness :
  paginate trailing_empty_api "key" "music" "s" "e" None initial_world
  = (Ok [example_row],
     mkworld [ mkreq "music" "s" "e" 200 0 "key" None;
               mkreq "music" "s" "e" 200 1 "key" None ] None).
Proof.
  apply (paginate_stops_at_empty_page trailing_empty_api "key" "music" "s" "e" None
           [[example_row]] true initial_world).
  - simpl. lia.
  - intros [| [| j]] rows H; simpl in H; try discriminate H.
    injection H as <-. split; [discriminate | reflexivity].
  - reflexivity.
Defined.

(* ===================================================================== *)
(** ** Date validation in [main] *)
(* ===================================================================== *)

Lemma strptime_nonempty (s : string) (d : date) :
  strptime_ymd s = Ok d -> given (Some s) = Some s.
Proof. destruct s; [discriminate | reflexivity]. Qed.

(** C8. When both date arguments parse and the end date is strictly before
    the start date, [ensure_dates] raises, and [main] raises with the world
    as it found it: no request has been sent and no file opened. *)
Theorem main_rejects_reversed_dates (api : request -> result json)
    (API_KEY : option string) (args : namespace) (s e : string) (ds de : date) (w : world) :
  start_date args = Some s ->
  end_date args = Some e ->
  strptime_ymd s = Ok ds ->
  strptime_ymd e = Ok de ->
  date_ltb de ds = true ->
  ensure_dates args = Raise (ValueError "end-date must be on/after start-date")
  /\ main api API_KEY args w
     = (Raise (ValueError (match given API_KEY with
                           | Some _ => "end-date must be on/after start-date"
                           | None => "Missing API_KEY"
                           end)), w)
  /\ program api API_KEY args w
     = (Raise (ValueError (match given API_KEY with
                           | Some _ => "end-date must be on/after start-date"
                           | None => "Missing TICKETMASTER_API_KEY environment variable"
                           end)), w).
Proof.
  intros Hs He Hds Hde Hlt.
  assert (Hens : ensure_dates args
                 = Raise (ValueError "end-date must be on/after start-date")).
  { unfold ensure_dates. rewrite Hs, He.
    rewrite (strptime_nonempty s ds Hds), (strptime_nonempty e de Hde).
    rewrite Hds, Hde. simpl. rewrite Hlt. reflexivity. }
  split; [exact Hens |].
  assert (Hmain : main api API_KEY args w
                  = (Raise (ValueError (match given API_KEY with
                                        | Some _ => "end-date must be on/after start-date"
                                        | None => "Missing API_KEY"
                                        end)), w)).
  { unfold main. destruct (given API_KEY); [| reflexivity].
    unfold io_bind, io_lift. rewrite Hens. reflexivity. }
  split; [exact Hmain |].
  unfold program. revert Hmain.
  destruct (given API_KEY); intros Hmain; [exact Hmain | reflexivity].
Qed.

Lemma main_rejects_reversed_dates_witness :
  program example_api (Some "key")
          (mkargs (Some "2026-01-10") (Some "2026-01-09") "out.csv" "music" false None None)
          initial_world
  = (Raise (ValueError "end-date must be on/after start-date"), initial_world).
Proof.
  apply (main_rejects_reversed_dates example_api (Some "key")
           (mkargs (Some "2026-01-10") (Some "2026-01-09") "out.csv" "music" false None None)
           "2026-01-10" "2026-01-09" (mkdate 2026 1 10) (mkdate 2026 1 9) initial_world);
    reflexivity.
Defined.

(* ===================================================================== *)
(** ** Country labels from the command line *)
(* ===================================================================== *)

Lemma country_table_values (key label : string) :
  dict_lookup key COUNTRY_NORMALIZE = Some label -> In label DEFAULT_ALLOWED.
Proof.
  unfold COUNTRY_NORMALIZE, DEFAULT_ALLOWED. simpl.
  repeat match goal with
         | |- context [String.eqb key ?k] => destruct (String.eqb key k)
         end;
    intros H; try discriminate H; injection H as <-; simpl; tauto.
Qed.

Lemma canonical_label_fixed (label : string) :
  In label DEFAULT_ALLOWED -> _normalize_country_label label = label.
Proof.
  intros [<- | [<- | [<- | [<- | []]]]]; reflexivity.
Qed.

Lemma normalize_country_label_fixed_or_canonical (name : string) :
  _normalize_country_label name = name
  \/ In (_normalize_country_label name) DEFAULT_ALLOWED.
Proof.
  unfold _normalize_country_label.
  destruct (dict_lookup (lower (strip name)) COUNTRY_NORMALIZE) as [label |] eqn:E.
  - right. exact (country_table_values _ _ E).
  - left. reflexivity.
Qed.

(** X1. Normalising a country label returns the label itself or one of the
    four canonical labels, and normalising twice is normalising once. *)
Theorem normalize_country_label_idempotent (name : string) :
  (_normalize_country_label name = name
   \/ In (_normalize_country_label name) DEFAULT_ALLOWED)
  /\ _normalize_country_label (_normalize_country_label name)
     = _normalize_country_label name.
Proof.
  destruct (dict_lookup (lower (strip name)) COUNTRY_NORMALIZE) as [label |] eqn:E.
  - assert (Hn : _normalize_country_label name = label)
      by (unfold _normalize_country_label; rewrite E; reflexivity).
    pose proof (country_table_values _ _ E) as Hin. rewrite Hn.
    split; [right; exact Hin | apply canonical_label_fixed; exact Hin].
  - assert (Hn : _normalize_country_label name = name)
      by (unfold _normalize_country_label; rewrite E; reflexivity).
    rewrite Hn. split; [left; reflexivity | exact Hn].
Qed.

Lemma split_fields_app (sep : ascii) (a b : string) :
  split_fields sep (a ++ String sep b)
  = (fst (split_fields sep a), snd (split_fields sep a) ++ split sep b).
Proof.
  induction a as [| c a IH]; simpl.
  - unfold split. destruct (split_fields sep b) as [hd tl].
    rewrite Ascii.eqb_refl. reflexivity.
  - rewrite IH. destruct (split_fields sep a) as [hd tl]. simpl.
    destruct (Ascii.eqb c sep); reflexivity.
Qed.

Lemma split_app (sep : ascii) (a b : string) :
  split sep (a ++ String sep b) = split sep a ++ split sep b.
Proof.
  unfold split at 1 2. rewrite split_fields_app.
  destruct (split_fields sep a) as [hd tl]. reflexivity.
Qed.

(** X2. The label list of two comma-joined arguments is the label list of
    the first followed by that of the second, whatever the default lists. *)
Theorem parse_list_comma (a b : string) (dflt1 dflt2 dflt3 : list string) :
  parse_list (Some (a ++ "," ++ b)%string) dflt1
  = parse_list (Some a) dflt2 ++ parse_list (Some b) dflt3.
Proof.
  unfold parse_list. simpl append.
  rewrite split_app, filter_app, !map_app. reflexivity.
Qed.

Lemma lower_nonempty (s : string) : nonempty (lower s) = nonempty s.
Proof. destruct s; reflexivity. Qed.

Lemma parse_list_nonempty (arg_val : option string) (default_list : list string) :
  forallb nonempty default_list = true ->
  forallb nonempty (parse_list arg_val default_list) = true.
Proof.
  intros Hd. destruct arg_val as [val |]; [| exact Hd]. unfold parse_list.
  apply forallb_forall. intros l Hl.
  apply in_map_iff in Hl as (item & <- & Hitem).
  apply in_map_iff in Hitem as (x & <- & Hx).
  apply filter_In in Hx as [_ Hx].
  destruct (normalize_country_label_fixed_or_canonical (strip x)) as [-> | Hin];
    [exact Hx |].
  destruct Hin as [<- | [<- | [<- | [<- | []]]]]; reflexivity.
Qed.

Lemma labels_without_empty (l : list string) :
  forallb nonempty l = true -> str_mem EmptyString (label_set (labels l)) = false.
Proof.
  unfold labels, label_set. induction l as [| a l IH]; simpl; [reflexivity |].
  intros H. apply andb_true_iff in H as [Ha Hl]. rewrite (IH Hl), orb_false_r.
  destruct a; [discriminate Ha | reflexivity].
Qed.

Lemma str_mem_in (s : string) (l : list string) : str_mem s l = true <-> In s l.
Proof.
  unfold str_mem. rewrite existsb_exists. split.
  - intros (x & Hx & E). apply String.eqb_eq in E. subst. exact Hx.
  - intros H. exists s. split; [exact H | apply String.eqb_refl].
Qed.

(** The filter raises on the first row whose country is neither a string
    nor falsy. *)
Lemma filter_loop_raises (allowed_set blocked_set : list string) (rows : list row) :
  forallb country_text_ok rows = false ->
  forall out, filter_loop allowed_set blocked_set rows out = Raise AttributeError.
Proof.
  induction rows as [| r rows IH]; simpl; intros H out; [discriminate H |].
  unfold country_text_ok at 1 in H. unfold py_or.
  destruct (truthy (dict_get r "country")) eqn:T; simpl in H |- *.
  - destruct (dict_get r "country") as [| b | n | s | l | d] eqn:C; simpl in H |- *;
      try reflexivity.
    repeat match goal with |- context [if ?c then _ else _] => destruct c end;
      apply IH; exact H.
  - repeat match goal with |- context [if ?c then _ else _] => destruct c end;
      apply IH; exact H.
Qed.

Lemma filter_by_countries_ok_inv (rows out : list row)
    (allowed blocked : option (list (option string))) :
  filter_by_countries rows allowed blocked = Ok out ->
  forallb country_text_ok rows = true /\ out = filter (retained allowed blocked) rows.
Proof.
  intros H. destruct (forallb country_text_ok rows) eqn:E.
  - split; [reflexivity |]. unfold filter_by_countries in H.
    rewrite (filter_loop_spec allowed blocked rows E) in H.
    injection H as <-. reflexivity.
  - unfold filter_by_countries in H. rewrite (filter_loop_raises _ _ rows E) in H.
    discriminate H.
Qed.

(** X3. With the allow-list the command line gives (the default one, or
    any [--allowed-countries] value that yields a label), no row without a
    country passes the filter: on rows whose countries are strings or
    absent the filter returns, and every row it keeps has a non-blank
    country. *)
Theorem cli_allow_list_needs_country (allowed_arg blocked_arg : option string)
    (rows : list row) :
  forallb country_text_ok rows = true ->
  parse_list allowed_arg DEFAULT_ALLOWED <> [] ->
  exists out,
    filter_by_countries rows (labels (parse_list allowed_arg DEFAULT_ALLOWED))
                        (labels (parse_list blocked_arg [])) = Ok out
    /\ forall r, In r out -> In r rows /\ country_label r <> EmptyString.
Proof.
  intros Hrows Hne.
  exists (filter (retained (labels (parse_list allowed_arg DEFAULT_ALLOWED))
                           (labels (parse_list blocked_arg []))) rows).
  split; [unfold filter_by_countries; rewrite filter_loop_spec by exact Hrows; reflexivity |].
  intros r Hr. apply filter_In in Hr as [Hin Hret]. split; [exact Hin |].
  intros Hblank. unfold retained in Hret. rewrite Hblank in Hret.
  rewrite (labels_without_empty (parse_list allowed_arg DEFAULT_ALLOWED)) in Hret
    by (apply parse_list_nonempty; reflexivity).
  destruct (parse_list allowed_arg DEFAULT_ALLOWED); [contradiction Hne; reflexivity |].
  discriminate Hret.
Qed.

Lemma cli_allow_list_needs_country_witness :
  exists out,
    filter_by_countries sample_rows (labels (parse_list (Some "ca, uk") DEFAULT_ALLOWED))
                        (labels (parse_list None [])) = Ok out
    /\ forall r, In r out -> In r sample_rows /\ country_label r <> EmptyString.
Proof.
  apply (cli_allow_list_needs_country (Some "ca, uk") None sample_rows);
    [reflexivity | discriminate].
Defined.

(** X4. A row whose country is neither a string nor falsy makes the
    filter raise [AttributeError], whatever the lists are, even when none
    is given. *)
Theorem filter_by_countries_raises (rows : list row)
    (allowed blocked : option (list (option string))) :
  forallb country_text_ok rows = false ->
  filter_by_countries rows allowed blocked = Raise AttributeError.
Proof. intros H. apply filter_loop_raises. exact H. Qed.

Lemma filter_by_countries_raises_witness :
  filter_by_countries [sample_row (JStr "E1") JNull (JNum 7)] None None
  = Raise AttributeError.
Proof.
  apply (filter_by_countries_raises [sample_row (JStr "E1") JNull (JNum 7)] None None).
  reflexivity.
Defined.

(** X5. Whenever the filter returns, it returns the retained rows of its
    input in their order, none of them with a label of the block-list,
    even one that is also in the allow-list; and filtering the result again
    changes nothing. *)
Theorem filter_by_countries_sound (rows out : list row)
    (allowed blocked : option (list (option string))) :
  filter_by_countries rows allowed blocked = Ok out ->
  out = filter (retained allowed blocked) rows
  /\ (forall r, In r out ->
        In r rows /\ ~ In (country_label r) (label_set blocked))
  /\ filter_by_countries out allowed blocked = Ok out.
Proof.
  intros H. apply filter_by_countries_ok_inv in H as [Htext ->].
  split; [reflexivity |].
  split.
  - intros r Hr. apply filter_In in Hr as [Hin Hret]. split; [exact Hin |].
    unfold retained in Hret. apply andb_true_iff in Hret as [_ Hb].
    intros Hmem. apply str_mem_in in Hmem. rewrite Hmem in Hb. discriminate Hb.
  - unfold filter_by_countries. rewrite filter_loop_spec.
    + simpl. f_equal. rewrite filter_filter. apply filter_ext_in_bool.
      intros r _. apply andb_diag.
    + apply forallb_forall. intros r Hr. apply filter_In in Hr as [Hin _].
      rewrite forallb_forall in Htext. apply Htext. exact Hin.
Qed.

Lemma filter_by_countries_sound_witness :
  filter_by_countries [sample_row (JStr "E2") JNull (JStr "France")]
                      (Some [Some "France"]) (Some [Some "FRANCE"]) = Ok []
  /\ filter_by_countries [] (Some [Some "France"]) (Some [Some "FRANCE"]) = Ok [].
Proof.
  destruct (filter_by_countries_sound
              [sample_row (JStr "E2") JNull (JStr "France")] []
              (Some [Some "France"]) (Some [Some "FRANCE"]) eq_refl) as (_ & _ & H).
  split; [reflexivity | exact H].
Defined.

(** X6. With neither list active (left out, or empty) the filter returns
    the rows unchanged. *)
Theorem filter_by_countries_no_lists (rows : list row)
    (allowed blocked : option (list (option string))) :
  forallb country_text_ok rows = true ->
  label_set allowed = [] ->
  label_set blocked = [] ->
  filter_by_countries rows allowed blocked = Ok rows.
Proof.
  intros Htext Ha Hb. unfold filter_by_countries.
  rewrite filter_loop_spec by exact Htext. simpl. f_equal.
  apply filter_all. apply forallb_forall. intros r _.
  unfold retained. rewrite Ha, Hb. reflexivity.
Qed.

Lemma filter_by_countries_no_lists_witness :
  filter_by_countries sample_rows None (Some []) = Ok sample_rows.
Proof.
  apply (filter_by_countries_no_lists sample_rows None (Some [])); reflexivity.
Defined.

(* ===================================================================== *)
(** ** More on de-duplication *)
(* ===================================================================== *)

Lemma key_mem_find_key (k : pykey) (c : list (pykey * row)) :
  key_mem k (map fst c) = match find_key k c with Some _ => true | None => false end.
Proof.
  unfold key_mem. induction c as [| [k' r] c IH]; simpl; [reflexivity |].
  destruct (pykey_eqb k k'); [reflexivity | exact IH].
Qed.


(** The keys of [combined] grow in order of first occurrence, and its rows
    come from the rows read. *)
Lemma combine_loop_order (rows : list row) :
  forall c c',
    combine_loop rows c = Ok c' ->
    map fst c'
    = fold_left (fun acc k => if key_mem k acc then acc else acc ++ [k])
                (map key_of rows) (map fst c)
    /\ forall kr, In kr c' -> In kr c \/ In (snd kr) rows.
Proof.
  induction rows as [| r rows IH]; simpl; intros c c' H.
  - injection H as <-. split; [reflexivity | intros kr Hkr; left; exact Hkr].
  - apply bind_ok in H as (id & Hid & H). apply bind_ok in H as (k & Hk & H).
    assert (Hkey : key_of r = k) by (unfold key_of, row_key; rewrite Hid; simpl; rewrite Hk; reflexivity).
    destruct (IH _ _ H) as [Hkeys Hin]. split.
    + rewrite Hkeys, dict_set_keys, Hkey, key_mem_find_key.
      destruct (find_key k c); reflexivity.
    + intros kr Hkr. destruct (Hin kr Hkr) as [Hc | Hr]; [| right; right; exact Hr].
      clear - Hc. induction c as [| [k0 r0] c IHc]; simpl in Hc.
      * destruct Hc as [<- | []]. right. left. reflexivity.
      * destruct (pykey_eqb k k0).
        -- destruct Hc as [<- | Hc]; [right; left; reflexivity | left; right; exact Hc].
        -- destruct Hc as [<- | Hc]; [left; left; reflexivity |].
           destruct (IHc Hc) as [Hl | Hr]; [left; right; exact Hl | right; exact Hr].
Qed.

Lemma first_occurrences_length (keys acc : list pykey) :
  length (fold_left (fun acc k => if key_mem k acc then acc else acc ++ [k]) keys acc)
  <= length acc + length keys.
Proof.
  revert acc. induction keys as [| k keys IH]; simpl; intros acc; [lia |].
  destruct (key_mem k acc).
  - specialize (IH acc). lia.
  - specialize (IH (acc ++ [k])). rewrite length_app in IH. simpl in IH. lia.
Qed.

(** X7. The merged rows stand in the order in which their identifiers
    first occur in the global list followed by the region list; each of
    them is a row of the input, and there are no more of them than input
    rows. *)
Theorem deduplicate_order (world_rows il_rows all_rows : list row) :
  deduplicate world_rows il_rows = Ok all_rows ->
  map key_of all_rows = first_occurrences (map key_of (world_rows ++ il_rows))
  /\ (forall r, In r all_rows -> In r (world_rows ++ il_rows))
  /\ length all_rows <= length (world_rows ++ il_rows).
Proof.
  unfold deduplicate. intros H. apply bind_ok in H as (c & Hc & H). injection H as <-.
  destruct (combine_loop_order _ _ _ Hc) as [Hkeys Hin].
  assert (Hnil : combined_ok []) by (split; constructor).
  destruct (combine_loop_spec _ _ _ Hc Hnil) as [[_ Hall] _].
  assert (Hmap : map key_of (map snd c) = map fst c).
  { clear - Hall. induction Hall as [| [k r] c Hkr _ IH]; simpl; [reflexivity |].
    simpl in Hkr. unfold key_of at 1. rewrite Hkr, IH. reflexivity. }
  split; [rewrite Hmap; exact Hkeys |]. split.
  - intros r Hr. apply in_map_iff in Hr as (kr & <- & Hkr).
    destruct (Hin kr Hkr) as [[] | Hrows]. exact Hrows.
  - rewrite length_map, <- (length_map fst c), Hkeys.
    pose proof (first_occurrences_length (map key_of (world_rows ++ il_rows)) []) as Hl.
    rewrite length_map in Hl. simpl in Hl. exact Hl.
Qed.

Lemma deduplicate_order_witness :
  map key_of [ sample_row JNull (JStr "second") JNull;
               sample_row (JStr "E1") (JStr "kept") JNull ]
  = first_occurrences
      (map key_of ([ sample_row JNull (JStr "first") JNull;
                     sample_row (JStr "E1") (JStr "kept") JNull ]
                   ++ [ sample_row JNull (JStr "second") JNull ])).
Proof.
  apply (deduplicate_order
           [ sample_row JNull (JStr "first") JNull;
             sample_row (JStr "E1") (JStr "kept") JNull ]
           [ sample_row JNull (JStr "second") JNull ]
           [ sample_row JNull (JStr "second") JNull;
             sample_row (JStr "E1") (JStr "kept") JNull ] eq_refl).
Defined.

Lemma dict_set_fresh (k : pykey) (r : row) (c : list (pykey * row)) :
  find_key k c = None -> dict_set pykey_eqb k r c = c ++ [(k, r)].
Proof.
  induction c as [| [k' r'] c IH]; simpl; [reflexivity |].
  destruct (pykey_eqb k k'); [discriminate |].
  intros H. rewrite (IH H). reflexivity.
Qed.

Lemma find_key_app (k k' : pykey) (r : row) (c : list (pykey * row)) :
  find_key k c = None -> pykey_eqb k k' = false -> find_key k (c ++ [(k', r)]) = None.
Proof.
  intros Hc Hk. induction c as [| [k0 r0] c IH]; simpl in *.
  - rewrite Hk. reflexivity.
  - destruct (pykey_eqb k k0); [discriminate Hc | apply IH; exact Hc].
Qed.

Lemma keyed_row_key (r : row) : keyed r = true -> row_key r = Ok (key_of r).
Proof.
  unfold keyed, key_of. destruct (row_key r); [reflexivity | discriminate].
Qed.

Lemma combine_loop_cons (r : row) (rows : list row) (c : list (pykey * row)) (k : pykey) :
  row_key r = Ok k ->
  combine_loop (r :: rows) c = combine_loop rows (dict_set pykey_eqb k r c).
Proof.
  unfold row_key. simpl. destruct (row_item r "event_id") as [id |]; simpl;
    [| discriminate].
  intros H. rewrite H. reflexivity.
Qed.

Lemma combine_loop_distinct (rows : list row) :
  forallb keyed rows = true ->
  distinct_ids rows = true ->
  forall c,
    (forall r, In r rows -> find_key (key_of r) c = None) ->
    combine_loop rows c = Ok (c ++ map (fun r => (key_of r, r)) rows).
Proof.
  induction rows as [| r rows IH]; intros Hk Hd c Hc.
  - simpl. rewrite app_nil_r. reflexivity.
  - simpl in Hk, Hd. apply andb_true_iff in Hk as [Hr Hk].
    apply andb_true_iff in Hd as [Hfresh Hd].
    pose proof (keyed_row_key r Hr) as Hkey.
    rewrite (combine_loop_cons r rows c _ Hkey).
    rewrite (dict_set_fresh _ r c) by (apply Hc; left; reflexivity).
    rewrite (IH Hk Hd).
    + simpl. rewrite <- app_assoc. reflexivity.
    + intros x Hx. apply find_key_app; [apply Hc; right; exact Hx |].
      rewrite <- forallb_negb_existsb in Hfresh. rewrite forallb_forall in Hfresh.
      specialize (Hfresh x Hx). unfold same_id, has_key in Hfresh.
      rewrite forallb_forall in Hk.
      rewrite Hkey, (keyed_row_key x (Hk x Hx)) in Hfresh.
      rewrite pykey_eqb_sym. destruct (pykey_eqb (key_of r) (key_of x));
        [discriminate Hfresh | reflexivity].
Qed.

(** X8. When every row has a hashable identifier and no two rows of the
    global list followed by the region list share one, de-duplication
    returns exactly those rows in that order. *)
Theorem deduplicate_distinct (world_rows il_rows : list row) :
  forallb keyed (world_rows ++ il_rows) = true ->
  distinct_ids (world_rows ++ il_rows) = true ->
  deduplicate world_rows il_rows = Ok (world_rows ++ il_rows).
Proof.
  intros Hk Hd. unfold deduplicate.
  rewrite (combine_loop_distinct _ Hk Hd []) by reflexivity.
  simpl. rewrite map_map. simpl. rewrite map_id. reflexivity.
Qed.

Lemma deduplicate_distinct_witness :
  deduplicate [sample_row (JStr "E2") JNull JNull] [sample_row (JStr "E1") JNull JNull]
  = Ok ([sample_row (JStr "E2") JNull JNull] ++ [sample_row (JStr "E1") JNull JNull]).
Proof.
  apply (deduplicate_distinct [sample_row (JStr "E2") JNull JNull]
                              [sample_row (JStr "E1") JNull JNull]); reflexivity.
Defined.




(* ===================================================================== *)
(** ** More on the normaliser and the page reader *)
(* ===================================================================== *)

Lemma bind_raise {A B : Type} (c : result A) (k : A -> result B) (x : exn) :
  bind c k = Raise x -> c = Raise x \/ exists a, c = Ok a /\ k a = Raise x.
Proof.
  destruct c as [a | e]; simpl; intros H.
  - right. exists a. split; [reflexivity | exact H].
  - left. injection H as <-. reflexivity.
Qed.

Lemma py_get_raise (a : json) (k : string) (x : exn) :
  py_get a k = Raise x -> shape_error x.
Proof.
  destruct a; simpl; intros H; try discriminate H; injection H as <-; left; reflexivity.
Qed.

(** [venues[0] if venues else {}]: the guard rules [IndexError] out. *)
Lemma guarded_first_raise (v dflt : json) (x : exn) :
  (if truthy v then py_first v else Ok dflt) = Raise x -> shape_error x.
Proof.
  destruct (truthy v) eqn:T; [| discriminate].
  destruct v as [| b | n | [| c s] | [| a l] | d]; simpl;
    intros H; try discriminate H; try discriminate T; injection H as <-;
    unfold shape_error; tauto.
Qed.

Lemma py_join_raise (sep : string) (l : list json) (x : exn) :
  py_join sep l = Raise x -> x = TypeError.
Proof.
  induction l as [| a l IH]; simpl; intros H; [discriminate H |].
  destruct a as [| | | t | |]; try (injection H as <-; reflexivity).
  destruct l as [| b l]; [discriminate H |].
  apply bind_raise in H as [H | (u & _ & H)]; [exact (IH H) | discriminate H].
Qed.

Lemma first_seen_loop_raise (names : list json) :
  forall seen out x, first_seen_loop names seen out = Raise x -> x = TypeError.
Proof.
  induction names as [| n rest IH]; simpl; intros seen out x H; [discriminate H |].
  apply bind_raise in H as [H | (k & _ & H)].
  - destruct n; simpl in H; try discriminate H; injection H as <-; reflexivity.
  - destruct (key_mem k seen); exact (IH _ _ _ H).
Qed.

Lemma extract_artists_raise (e : json) (x : exn) :
  extract_artists e = Raise x -> shape_error x.
Proof.
  unfold extract_artists, attraction_names, attractions. intros H.
  repeat match goal with
         | Hb : bind _ _ = Raise _ |- _ =>
             apply bind_raise in Hb as [Hb | (? & ? & Hb)]; cbv beta in Hb
         end;
    try (eapply py_get_raise; eassumption);
    try discriminate.
  - match goal with
    | Hi : py_iter ?v = Raise _ |- _ =>
        destruct v; simpl in Hi; try discriminate Hi; injection Hi as <-
    end; right; left; reflexivity.
  - rewrite comprehension_ok in H. discriminate H.
  - right. left. eapply first_seen_loop_raise. eassumption.
Qed.

Lemma normalize_row_shape_error (e : json) (x : exn) :
  normalize_row e = Raise x -> shape_error x.
Proof.
  unfold normalize_row. intros H.
  repeat match goal with
         | Hb : bind _ _ = Raise _ |- _ =>
             apply bind_raise in Hb as [Hb | (? & ? & Hb)]; cbv beta zeta in Hb
         end;
    try (eapply py_get_raise; eassumption);
    try (eapply guarded_first_raise; eassumption);
    try (eapply extract_artists_raise; eassumption);
    try discriminate.
  match goal with
  | Hj : match ?l with [] => _ | _ :: _ => _ end = Raise _ |- _ =>
      destruct l; [discriminate Hj |];
      apply bind_raise in Hj as [Hj | (? & _ & Hj)]; [| discriminate Hj];
      right; left; exact (py_join_raise _ _ _ Hj)
  end.
Qed.

(** X10. Whatever the event, the normaliser raises nothing but
    [AttributeError], [TypeError] or [KeyError]: the guard on [venues[0]]
    and [classifications[0]] rules [IndexError] out. *)
Theorem normalize_row_raises_only (e : json) (x : exn) :
  normalize_row e = Raise x ->
  shape_error x /\ x <> IndexError /\ (forall msg, x <> ValueError msg /\ x <> URLError msg).
Proof.
  intros H. pose proof (normalize_row_shape_error e x H) as Hx.
  split; [exact Hx |].
  destruct Hx as [-> | [-> | ->]]; split; try discriminate; intros msg; split; discriminate.
Qed.

Lemma normalize_row_raises_only_witness :
  normalize_row (JObj [("_embedded", JObj [("venues", JObj [("name", JStr "Hall")])])])
  = Raise KeyError
  /\ shape_error KeyError.
Proof.
  split; [reflexivity |].
  apply (normalize_row_raises_only
           (JObj [("_embedded", JObj [("venues", JObj [("name", JStr "Hall")])])]) KeyError).
  reflexivity.
Defined.

(** X11. The normaliser reads six top-level keys of the event and nothing
    else: two events that agree on them have the same outcome. *)
Theorem normalize_row_reads_six_keys (d d' : list (string * json)) :
  (forall k, In k event_keys -> dict_get d k = dict_get d' k) ->
  normalize_row (JObj d) = normalize_row (JObj d').
Proof.
  intros H. unfold normalize_row, extract_artists, attraction_names, attractions.
  simpl py_get.
  rewrite (H "_embedded"), (H "classifications"), (H "dates"), (H "id"),
          (H "name"), (H "url") by (simpl; tauto).
  reflexivity.
Qed.

Lemma normalize_row_reads_six_keys_witness :
  normalize_row (JObj [("id", JStr "E1"); ("promoter", JStr "P"); ("test", JBool true)])
  = normalize_row (JObj [("id", JStr "E1")]).
Proof.
  apply (normalize_row_reads_six_keys
           [("id", JStr "E1"); ("promoter", JStr "P"); ("test", JBool true)]
           [("id", JStr "E1")]).
  intros k [<- | [<- | [<- | [<- | [<- | [<- | []]]]]]]; reflexivity.
Defined.

Lemma map_result_normalize_ok (events : list json) :
  forallb well_shaped events = true ->
  map_result normalize_row events = Ok (map (fun e => flat_row (fields_of e)) events).
Proof.
  induction events as [| e events IH]; simpl; [reflexivity |].
  intros H. apply andb_true_iff in H as [He Hes].
  destruct e as [| | | | | d]; try discriminate He.
  rewrite (normalize_row_well_shaped d He). simpl. rewrite (IH Hes). reflexivity.
Qed.

Lemma map_result_normalize_raises (events : list json) :
  forallb well_shaped events = false ->
  exists x, map_result normalize_row events = Raise x /\ shape_error x.
Proof.
  induction events as [| e events IH]; simpl; [discriminate |].
  intros H. destruct (normalize_row e) as [r | x] eqn:E.
  - rewrite (normalize_row_shape e r E) in H. simpl in H |- *.
    destruct (IH H) as (x & -> & Hx). exists x. split; [reflexivity | exact Hx].
  - exists x. split; [reflexivity | exact (normalize_row_shape_error e x E)].
Qed.

(** X12. A page is read whole or not at all.  For a response whose
    [_embedded] and [_links] are dicts or falsy and whose events are a
    list: if every event is well shaped the page is one row per event, in
    order, with the truth value of the next link; if one event is not, the
    page raises and gives no row. *)
Theorem read_page_all_or_nothing (d : list (string * json)) (events : list json) :
  falsy_or_dict (dict_get d "_embedded") = true ->
  falsy_or_dict (dict_get d "_links") = true ->
  page_events d = JArr events ->
  (forallb well_shaped events = true ->
   read_page (JObj d)
   = Ok (map (fun e => flat_row (fields_of e)) events, truthy (page_next d)))
  /\ (forallb well_shaped events = false ->
      exists x, read_page (JObj d) = Raise x /\ shape_error x).
Proof.
  intros Hemb Hlinks Hev. unfold read_page. simpl py_get. simpl bind.
  rewrite (py_get_falsy_or_dict _ "events" Hemb). simpl bind.
  fold (page_events d). rewrite Hev. simpl py_iter. simpl bind. split.
  - intros Hall. rewrite (map_result_normalize_ok events Hall). simpl.
    rewrite (py_get_falsy_or_dict _ "next" Hlinks). reflexivity.
  - intros Hbad. destruct (map_result_normalize_raises events Hbad) as (x & -> & Hx).
    exists x. split; [reflexivity | exact Hx].
Qed.

Lemma read_page_all_or_nothing_witness :
  read_page (JObj [ ("_embedded", JObj [ ("events", JArr [example_event; example_event]) ]) ])
  = Ok ([example_row; example_row], false).
Proof.
  apply (proj1 (read_page_all_or_nothing
                  [ ("_embedded", JObj [ ("events", JArr [example_event; example_event]) ]) ]
                  [example_event; example_event] eq_refl eq_refl eq_refl)).
  reflexivity.
Defined.

(* ===================================================================== *)
(** ** More on the paginator *)
(* ===================================================================== *)

Section PaginatorRuns.

Variable api : request -> result json.
Variables API_KEY segment start_iso end_iso : string.
Variable country_code : option string.

Local Abbreviation scope_request :=
  (scope_request API_KEY segment start_iso end_iso country_code).
Local Abbreviation fetched :=
  (fetched api API_KEY segment start_iso end_iso country_code).
Local Abbreviation paginate_loop :=
  (paginate_loop api API_KEY segment start_iso end_iso country_code).

(** Pages that hold rows and report a next page are accumulated, and the
    loop goes on from the page after them. *)
Lemma paginate_loop_prefix (pages : list (list row)) :
  forall p rows_all w,
    p + length pages < 5 ->
    (forall j rows, nth_error pages j = Some rows ->
                    rows <> [] /\ fetched (p + j) = Ok (rows, true)) ->
    paginate_loop p rows_all w
    = paginate_loop (p + length pages) (rows_all ++ concat pages)
                    (mkworld (sent w ++ map scope_request (seq p (length pages))) (file w)).
Proof.
  induction pages as [| rows pages IH]; intros p rows_all w Hlen Hpages.
  - simpl. rewrite Nat.add_0_r, !app_nil_r. destruct w; reflexivity.
  - rewrite paginate_loop_step.
    destruct (Hpages 0 rows eq_refl) as [Hne Hfetch].
    rewrite Nat.add_0_r in Hfetch. rewrite Hfetch.
    destruct rows as [| r rows]; [contradiction Hne; reflexivity |].
    simpl negb. simpl orb. simpl in Hlen.
    destruct (past_limit p) as [Hle | Hlt];
      [exfalso; unfold DEEP_PAGING_LIMIT in Hle; lia |].
    rewrite IH.
    + unfold after_request. simpl.
      rewrite <- !app_assoc, Nat.add_1_r, Nat.add_succ_comm. reflexivity.
    + lia.
    + intros j rows' Hj. replace (p + 1 + j) with (p + S j) by lia.
      apply Hpages. exact Hj.
Qed.

(** X13. An exception of the page fetcher ends the scope with that
    exception: when pages 0 to k-1 hold rows and report a next page and
    the fetch of page k raises, the paginator raises the same exception
    after the request for page k, and the rows read so far are not
    returned. *)
Theorem paginate_propagates (pages : list (list row)) (x : exn) (w : world) :
  length pages < 5 ->
  (forall j rows, nth_error pages j = Some rows ->
                  rows <> [] /\ fetched j = Ok (rows, true)) ->
  fetched (length pages) = Raise x ->
  paginate api API_KEY segment start_iso end_iso country_code w
  = (Raise x,
     mkworld (sent w ++ map scope_request (seq 0 (S (length pages)))) (file w)).
Proof.
  intros Hlen Hpages Hlast. unfold paginate.
  rewrite (paginate_loop_prefix pages 0 [] w Hlen Hpages).
  rewrite paginate_loop_step. simpl Nat.add. rewrite Hlast.
  unfold after_request. simpl sent. simpl file.
  rewrite <- app_assoc, seq_S, map_app. reflexivity.
Qed.

(** X14. The scope ends with the first page that reports no next page, and
    with the fifth page in any case: when pages 0 to k-1 hold rows and
    report a next page, and page k holds rows and either reports no next
    page or is page 4, the paginator returns the rows of pages 0 to k and
    its last request is the one for page k. *)
Theorem paginate_last_page (pages : list (list row)) (rows : list row)
    (has_next : bool) (w : world) :
  length pages < 5 ->
  (forall j rows, nth_error pages j = Some rows ->
                  rows <> [] /\ fetched j = Ok (rows, true)) ->
  rows <> [] ->
  fetched (length pages) = Ok (rows, has_next) ->
  has_next = false \/ length pages = 4 ->
  paginate api API_KEY segment start_iso end_iso country_code w
  = (Ok (concat pages ++ rows),
     mkworld (sent w ++ map scope_request (seq 0 (S (length pages)))) (file w)).
Proof.
  intros Hlen Hpages Hne Hlast Hstop. unfold paginate.
  rewrite (paginate_loop_prefix pages 0 [] w Hlen Hpages).
  rewrite paginate_loop_step. simpl Nat.add. rewrite Hlast.
  destruct rows as [| r rows]; [contradiction Hne; reflexivity |].
  assert (Hexit : negb has_next || (if past_limit (length pages) then true else false) = true).
  { destruct Hstop as [-> | H4]; [reflexivity |].
    destruct (past_limit (length pages)) as [Hle | Hlt]; [apply orb_true_r |].
    exfalso. unfold DEEP_PAGING_LIMIT in Hlt. lia. }
  rewrite Hexit. unfold after_request. simpl sent. simpl file.
  rewrite seq_S, map_app, app_assoc. reflexivity.
Qed.

End PaginatorRuns.

Lemma paginate_propagates_witness :
  paginate (fun r => if (page r =? 1)%nat then Raise (URLError "timed out")
                     else trailing_empty_api r)
           "key" "music" "s" "e" None initial_world
  = (Raise (URLError "timed out"),
     mkworld (map (scope_request "key" "music" "s" "e" None) (seq 0 2)) None).
Proof.
  apply (paginate_propagates
           (fun r => if (page r =? 1)%nat then Raise (URLError "timed out")
                     else trailing_empty_api r)
           "key" "music" "s" "e" None [[example_row]] (URLError "timed out") initial_world).
  - simpl. lia.
  - intros [| [| j]] rows H; simpl in H; try discriminate H.
    injection H as <-. split; [discriminate | reflexivity].
  - reflexivity.
Defined.

Lemma paginate_last_page_witness :
  paginate example_api "key" "music" "s" "e" None initial_world
  = (Ok [example_row],
     mkworld (map (scope_request "key" "music" "s" "e" None) (seq 0 1)) None).
Proof.
  apply (paginate_last_page example_api "key" "music" "s" "e" None
           [] [example_row] false initial_world).
  - simpl. lia.
  - intros [| j] rows H; discriminate H.
  - discriminate.
  - reflexivity.
  - left. reflexivity.
Defined.

(* ===================================================================== *)
(** ** The whole run *)
(* ===================================================================== *)

Lemma map_result_header_rows (events : list json) (rows : list row) :
  map_result normalize_row events = Ok rows -> Forall header_row rows.
Proof.
  revert rows. induction events as [| e events IH]; simpl; intros rows H.
  - injection H as <-. constructor.
  - apply bind_ok in H as (r & Hr & H). apply bind_ok in H as (rs & Hrs & H).
    injection H as <-. constructor; [| exact (IH rs Hrs)].
    apply normalize_row_ok in Hr. apply Hr.
Qed.

Lemma read_page_header_rows (data : json) (rows : list row) (has_next : bool) :
  read_page data = Ok (rows, has_next) -> Forall header_row rows.
Proof.
  unfold read_page. intros H. bind_inv. injection H as <- _.
  eapply map_result_header_rows. eassumption.
Qed.

Lemma paginate_loop_header_rows (api : request -> result json)
    (API_KEY segment start_iso end_iso : string) (country_code : option string) (m : nat) :
  forall p rows_all w rows,
    p + m = 4 ->
    Forall header_row rows_all ->
    fst (paginate_loop api API_KEY segment start_iso end_iso country_code p rows_all w)
    = Ok rows ->
    Forall header_row rows.
Proof.
  induction m as [| m IH]; intros p rows_all w rows Hp Hall;
    rewrite paginate_loop_step;
    destruct (fetched api API_KEY segment start_iso end_iso country_code p)
      as [[page_rows hn] | e] eqn:F; try discriminate.
  all: assert (Hpage : Forall header_row page_rows)
    by (unfold fetched in F; apply bind_ok in F as (data & _ & F);
        exact (read_page_header_rows _ _ _ F)).
  all: destruct page_rows as [| r page_rows];
    [simpl; intros H; injection H as <-; exact Hall |].
  all: destruct hn; simpl negb; simpl orb;
    [destruct (past_limit p) as [Hle | Hlt] |].
  all: try (simpl; intros H; injection H as <-; apply Forall_app; split; assumption).
  - exfalso. unfold DEEP_PAGING_LIMIT in Hlt. lia.
  - apply IH; [lia | apply Forall_app; split; assumption].
Qed.

(** A scope sends the requests for its first pages, at most five, leaves
    the file alone, and returns normalised rows. *)
Lemma paginate_run (api : request -> result json)
    (API_KEY segment start_iso end_iso : string) (country_code : option string)
    (w : world) :
  exists n res,
    1 <= n <= 5
    /\ paginate api API_KEY segment start_iso end_iso country_code w
       = (res, mkworld (sent w ++ scope_requests API_KEY segment start_iso end_iso
                                                 country_code n) (file w))
    /\ forall rows, res = Ok rows -> Forall header_row rows.
Proof.
  destruct (paginate_loop_bounded api API_KEY segment start_iso end_iso country_code
              4 0 [] w eq_refl) as (n & Hn & Hw & _).
  exists n.
  exists (fst (paginate api API_KEY segment start_iso end_iso country_code w)).
  split; [exact Hn |]. split.
  - unfold paginate, scope_requests. rewrite <- Hw.
    destruct (paginate_loop _ _ _ _ _ _ _ _ _); reflexivity.
  - intros rows H.
    exact (paginate_loop_header_rows api API_KEY segment start_iso end_iso country_code
             4 0 [] w rows eq_refl (Forall_nil _) H).
Qed.

Lemma dict_to_list_header_row (r : row) :
  header_row r -> dict_to_list headers r = Ok (map snd r).
Proof.
  unfold header_row, headers. intros H.
  do 12 (destruct r as [| [? ?] r]; [discriminate H |]).
  destruct r; [| discriminate H].
  simpl in H. injection H as -> -> -> -> -> -> -> -> -> -> -> ->. reflexivity.
Qed.

(** Writing normalised rows never fails: each row adds its twelve values
    to the open file. *)
Lemma writerows_header_rows (rows : list row) :
  Forall header_row rows ->
  forall sent_ path content,
    writerows headers rows (mkworld sent_ (Some (path, content)))
    = (Ok tt, mkworld sent_ (Some (path, content ++ map (map snd) rows))).
Proof.
  induction 1 as [| r rows Hr _ IH]; intros sent_ path content; simpl.
  - unfold io_ret. rewrite app_nil_r. reflexivity.
  - unfold io_bind, writerow, io_bind, io_lift.
    rewrite (dict_to_list_header_row r Hr). unfold write_record. simpl.
    rewrite IH, <- app_assoc. reflexivity.
Qed.

Lemma combined_distinct (c : list (pykey * row)) :
  combined_ok c -> distinct_ids (map snd c) = true.
Proof.
  intros [Hnd Hall]. induction c as [| [k r] c IH]; simpl; [reflexivity |].
  inversion Hnd as [| ? ? Hnotin Hnd']; subst.
  inversion Hall as [| ? ? Hkr Hall']; subst. simpl in Hkr.
  rewrite (IH Hnd' Hall'), andb_true_r.
  rewrite <- forallb_negb_existsb. apply forallb_forall.
  intros x Hx. apply in_map_iff in Hx as ([k' r'] & <- & Hin). simpl.
  rewrite Forall_forall in Hall'. specialize (Hall' _ Hin). simpl in Hall'.
  unfold same_id, has_key. rewrite Hkr, Hall'.
  destruct (pykey_eqb k k') eqn:E; [| reflexivity].
  apply pykey_eqb_eq in E. subst k'. exfalso. apply Hnotin.
  apply in_map_iff. exists (k, r'). split; [reflexivity | exact Hin].
Qed.

Lemma distinct_ids_filter (p : row -> bool) (rows : list row) :
  distinct_ids rows = true -> distinct_ids (filter p rows) = true.
Proof.
  induction rows as [| r rows IH]; simpl; [reflexivity |].
  intros H. apply andb_true_iff in H as [Hr Hrows].
  destruct (p r); simpl; [| exact (IH Hrows)].
  rewrite (IH Hrows), andb_true_r.
  rewrite <- forallb_negb_existsb in *. rewrite forallb_forall in *.
  intros x Hx. apply filter_In in Hx as [Hx _]. exact (Hr x Hx).
Qed.

Lemma deduplicate_distinct_ids (world_rows il_rows all_rows : list row) :
  deduplicate world_rows il_rows = Ok all_rows -> distinct_ids all_rows = true.
Proof.
  unfold deduplicate. intros H. apply bind_ok in H as (c & Hc & H). injection H as <-.
  assert (Hnil : combined_ok []) by (split; constructor).
  destruct (combine_loop_spec _ _ _ Hc Hnil) as [Hok _].
  exact (combined_distinct c Hok).
Qed.

Lemma deduplicate_header_rows (world_rows il_rows all_rows : list row) :
  deduplicate world_rows il_rows = Ok all_rows ->
  Forall header_row (world_rows ++ il_rows) ->
  Forall header_row all_rows.
Proof.
  unfold deduplicate. intros H Hall. apply bind_ok in H as (c & Hc & H). injection H as <-.
  destruct (combine_loop_order _ _ _ Hc) as [_ Hin].
  rewrite Forall_forall in *. intros r Hr.
  apply in_map_iff in Hr as (kr & <- & Hkr).
  destruct (Hin kr Hkr) as [[] | Hrows]. exact (Hall _ Hrows).
Qed.

(** The run of [main] step by step: the requests it has sent are those of
    the global scope followed by those of the region scope, and it ends
    either with an exception and the file as it was, or with the file
    rewritten. *)
Lemma main_run (api : request -> result json) (key : string) (args : namespace)
    (w w' : world) (res : result unit) :
  given (Some key) = Some key ->
  main api (Some key) args w = (res, w') ->
  exists start_iso end_iso n1 n2,
    n1 <= 5 /\ n2 <= 5 /\ (no_il args = true -> n2 = 0)
    /\ sent w' = sent w
                 ++ scope_requests key (segment args) start_iso end_iso None n1
                 ++ scope_requests key (segment args) start_iso end_iso (Some "IL") n2
    /\ ((exists x, res = Raise x /\ file w' = file w)
        \/ (res = Ok tt
            /\ exists rows,
                 file w' = Some (out args, map JStr headers :: map (map snd) rows)
                 /\ Forall header_row rows
                 /\ distinct_ids rows = true)).
Proof.
  intros Hkey. unfold main. rewrite Hkey. unfold io_bind at 1, io_lift at 1.
  destruct (ensure_dates args) as [dates |x] eqn:Hdates.
  2:{ intros H. injection H as <- <-. exists EmptyString, EmptyString, 0, 0.
      split; [lia |]. split; [lia |]. split; [reflexivity |].
      split; [rewrite app_nil_r; reflexivity |].
      left. exists x. split; reflexivity. }
  destruct (to_iso_range (fst dates) (snd dates)) as [start_iso end_iso].
  unfold io_bind at 1.
  destruct (paginate_run api key (segment args) start_iso end_iso None w)
    as (n1 & res1 & Hn1 & Hrun1 & Hrows1).
  rewrite Hrun1. set (w1 := mkworld _ _).
  destruct res1 as [world_rows | x].
  2:{ intros H. injection H as <- <-. exists start_iso, end_iso, n1, 0.
      split; [lia |]. split; [lia |]. split; [reflexivity |].
      split; [simpl; rewrite app_nil_r; reflexivity |].
      left. exists x. split; reflexivity. }
  unfold io_bind at 1.
  assert (Hil : exists n2 res2,
             n2 <= 5 /\ (no_il args = true -> n2 = 0)
             /\ (if no_il args then io_ret []
                 else paginate api key (segment args) start_iso end_iso (Some "IL")) w1
                = (res2, mkworld (sent w1 ++ scope_requests key (segment args) start_iso
                                                end_iso (Some "IL") n2) (file w))
             /\ forall rows, res2 = Ok rows -> Forall header_row rows).
  { destruct (no_il args).
    - exists 0, (Ok []). split; [lia |]. split; [reflexivity |]. split.
      + unfold io_ret, w1. simpl. rewrite app_nil_r. reflexivity.
      + intros rows H. injection H as <-. constructor.
    - destruct (paginate_run api key (segment args) start_iso end_iso (Some "IL") w1)
        as (n2 & res2 & Hn2 & Hrun2 & Hrows2).
      exists n2, res2. split; [lia |]. split; [discriminate |].
      split; [exact Hrun2 | exact Hrows2]. }
  destruct Hil as (n2 & res2 & Hn2 & Hnoil & Hrun2 & Hrows2).
  rewrite Hrun2. set (w2 := mkworld _ _).
  assert (Hsent : sent w2 = sent w
                  ++ scope_requests key (segment args) start_iso end_iso None n1
                  ++ scope_requests key (segment args) start_iso end_iso (Some "IL") n2)
    by (unfold w2, w1; simpl; rewrite app_assoc; reflexivity).
  destruct res2 as [il_rows | x].
  2:{ intros H. injection H as <- <-. exists start_iso, end_iso, n1, n2.
      split; [lia |]. split; [lia |]. split; [exact Hnoil |]. split; [exact Hsent |].
      left. exists x. split; reflexivity. }
  unfold io_bind at 1, io_lift at 1.
  destruct (deduplicate world_rows il_rows) as [all_rows | x] eqn:Hdedup.
  2:{ intros H. injection H as <- <-. exists start_iso, end_iso, n1, n2.
      split; [lia |]. split; [lia |]. split; [exact Hnoil |]. split; [exact Hsent |].
      left. exists x. split; reflexivity. }
  unfold io_bind at 1, io_lift at 1.
  destruct (filter_by_countries all_rows _ _) as [filtered_rows | x] eqn:Hfilter.
  2:{ intros H. injection H as <- <-. exists start_iso, end_iso, n1, n2.
      split; [lia |]. split; [lia |]. split; [exact Hnoil |]. split; [exact Hsent |].
      left. exists x. split; reflexivity. }
  apply filter_by_countries_ok_inv in Hfilter as [_ Hfiltered].
  assert (Hall : Forall header_row all_rows).
  { apply (deduplicate_header_rows _ _ _ Hdedup).
    apply Forall_app. split; [apply Hrows1 | apply Hrows2]; reflexivity. }
  assert (Hfr : Forall header_row filtered_rows).
  { subst filtered_rows. rewrite Forall_forall in *. intros r Hr.
    apply filter_In in Hr as [Hr _]. exact (Hall r Hr). }
  unfold io_bind, open_w, writeheader, write_record. simpl.
  rewrite (writerows_header_rows filtered_rows Hfr). simpl.
  intros H. injection H as <- <-. exists start_iso, end_iso, n1, n2.
  split; [lia |]. split; [lia |]. split; [exact Hnoil |]. split; [exact Hsent |].
  right. split; [reflexivity |].
  exists filtered_rows. split; [reflexivity |]. split; [exact Hfr |].
  subst filtered_rows. apply distinct_ids_filter.
  exact (deduplicate_distinct_ids _ _ _ Hdedup).
Qed.

Lemma given_some (a : option string) (k : string) :
  given a = Some k -> a = Some k.
Proof.
  destruct a as [s |]; simpl; [| discriminate].
  destruct (nonempty s); [| discriminate]. intros H. injection H as <-. reflexivity.
Qed.

(** The run of the whole script: without a key nothing happens, with one
    it is the run of [main]. *)
Lemma program_run (api : request -> result json) (env_key : option string)
    (args : namespace) (w w' : world) (res : result unit) :
  program api env_key args w = (res, w') ->
  (given env_key = None /\ w' = w /\ exists x, res = Raise x)
  \/ exists key,
       env_key = Some key /\ given (Some key) = Some key
       /\ main api (Some key) args w = (res, w').
Proof.
  unfold program. destruct (given env_key) as [key |] eqn:G.
  - intros H. right. exists key. pose proof (given_some _ _ G) as ->.
    split; [reflexivity |]. split; [exact G | exact H].
  - intros H. injection H as <- <-. left.
    split; [reflexivity |]. split; [reflexivity |]. eexists. reflexivity.
Qed.





Lemma scope_requests_facts (key seg s e : string) (cc : option string) (n : nat) :
  length (scope_requests key seg s e cc n) = n
  /\ Forall (fun r => size r = 200 /\ page r < n /\ apikey r = key
                      /\ segmentName r = seg /\ countryCode r = given cc)
            (scope_requests key seg s e cc n).
Proof.
  unfold scope_requests. split; [rewrite length_map, length_seq; reflexivity |].
  apply Forall_map. apply Forall_forall. intros p Hp. apply in_seq in Hp.
  simpl. repeat split; lia.
Qed.

(** X17. Whatever the API answers, one run sends at most ten requests: at
    most five for the global scope, then at most five for the region
    scope, each for 200 results of a page from 0 to 4 and the segment
    asked for, the region ones with country code IL; with [--no-il] all
    requests are global. *)
Theorem program_requests (api : request -> result json)
    (env_key : option string) (args : namespace) (w w' : world) (res : result unit) :
  program api env_key args w = (res, w') ->
  exists global region,
    sent w' = sent w ++ global ++ region
    /\ length global <= 5 /\ length region <= 5
    /\ (no_il args = true -> region = [])
    /\ Forall (fun r => size r = 200 /\ page r <= 4 /\ segmentName r = segment args
                        /\ countryCode r = None) global
    /\ Forall (fun r => size r = 200 /\ page r <= 4 /\ segmentName r = segment args
                        /\ countryCode r = Some "IL") region.
Proof.
  intros H. apply program_run in H as [(_ & -> & _) | (key & -> & Hkey & H)].
  - exists [], []. rewrite app_nil_r.
    split; [reflexivity |]. split; [simpl; lia |]. split; [simpl; lia |].
    split; [reflexivity |]. split; constructor.
  - destruct (main_run api key args w w' res Hkey H)
      as (s & e & n1 & n2 & Hn1 & Hn2 & Hnoil & Hsent & _).
    destruct (scope_requests_facts key (segment args) s e None n1) as [Hl1 Hf1].
    destruct (scope_requests_facts key (segment args) s e (Some "IL") n2) as [Hl2 Hf2].
    exists (scope_requests key (segment args) s e None n1),
           (scope_requests key (segment args) s e (Some "IL") n2).
    split; [exact Hsent |]. split; [lia |]. split; [lia |]. split.
    + intros Hno. rewrite (Hnoil Hno). reflexivity.
    + split; [eapply Forall_impl; [| exact Hf1] | eapply Forall_impl; [| exact Hf2]];
        intros r (Hsize & Hpage & _ & Hseg & Hcc); repeat split; try assumption; lia.
Qed.

Lemma program_requests_witness :
  exists global region,
    sent (snd (program full_pages_api (Some "key") example_args initial_world))
    = sent initial_world ++ global ++ region
    /\ length global <= 5 /\ length region <= 5
    /\ (no_il example_args = true -> region = [])
    /\ Forall (fun r => size r = 200 /\ page r <= 4 /\ segmentName r = segment example_args
                        /\ countryCode r = None) global
    /\ Forall (fun r => size r = 200 /\ page r <= 4 /\ segmentName r = segment example_args
                        /\ countryCode r = Some "IL") region.
Proof.
  apply (program_requests full_pages_api (Some "key") example_args initial_world
           (snd (program full_pages_api (Some "key") example_args initial_world))
           (fst (program full_pages_api (Some "key") example_args initial_world))).
  vm_compute. reflexivity.
Defined.

(* ===================================================================== *)
(** ** Dates *)
(* ===================================================================== *)

Lemma digit_bound (c : ascii) (n : nat) : digit c = Some n -> n <= 9.
Proof.
  unfold digit. destruct (_ && _)%bool eqn:E; [| discriminate].
  intros H. injection H as <-.
  apply andb_true_iff in E as [_ E]. apply Nat.leb_le in E. lia.
Qed.

Lemma year_field_bound (s : string) (y : nat) : year_field s = Some y -> y < 100 * 100.
Proof.
  unfold year_field.
  destruct s as [| a [| b [| c [| d [| ? ?]]]]]; try discriminate.
  destruct (digit a) as [na |] eqn:Ha; [| discriminate].
  destruct (digit b) as [nb |] eqn:Hb; [| discriminate].
  destruct (digit c) as [nc |] eqn:Hc; [| discriminate].
  destruct (digit d) as [nd |] eqn:Hd; [| discriminate].
  intros H. injection H as <-.
  apply digit_bound in Ha, Hb, Hc, Hd. lia.
Qed.

Lemma month_field_bound (s : string) (m : nat) : month_field s = Some m -> 1 <= m <= 12.
Proof.
  unfold month_field.
  destruct s as [| a [| b [| ? ?]]]; try discriminate.
  - destruct (digit a) as [na |] eqn:Ha; [| discriminate].
    destruct (1 <=? na)%nat eqn:E; [| discriminate].
    intros H. injection H as <-. apply Nat.leb_le in E. apply digit_bound in Ha. lia.
  - destruct (digit a) as [[| [| ?]] |]; destruct (digit b) as [nb |] eqn:Hb;
      try discriminate.
    + destruct (1 <=? nb)%nat eqn:E; [| discriminate].
      intros H. injection H as <-. apply Nat.leb_le in E. apply digit_bound in Hb. lia.
    + destruct (nb <=? 2)%nat eqn:E; [| discriminate].
      intros H. injection H as <-. apply Nat.leb_le in E. lia.
Qed.

Lemma strptime_valid (s : string) (d : date) : strptime_ymd s = Ok d -> valid_date d.
Proof.
  unfold strptime_ymd.
  destruct (split "-" s) as [| ys [| ms [| ds [| ? ?]]]]; try discriminate.
  destruct (year_field ys) as [y |] eqn:Hy; [| discriminate].
  destruct (month_field ms) as [m |] eqn:Hm; [| discriminate].
  destruct (day_field ds) as [dd |] eqn:Hd; [| discriminate].
  destruct (y =? 0)%nat eqn:Ey; [discriminate |].
  destruct (days_in_month y m <? dd)%nat eqn:Ed; [discriminate |].
  intros H. injection H as <-. unfold valid_date. simpl.
  apply Nat.eqb_neq in Ey. apply Nat.ltb_ge in Ed.
  apply year_field_bound in Hy. apply month_field_bound in Hm.
  assert (1 <= dd).
  { clear - Hd. unfold day_field in Hd.
    destruct ds as [| a [| b [| ? ?]]]; try discriminate.
    - destruct (digit a) as [na |]; [| discriminate].
      destruct (1 <=? na)%nat eqn:E; [| discriminate].
      injection Hd as <-. apply Nat.leb_le in E. exact E.
    - destruct (digit a) as [[| [| [| [| ?]]]] |]; destruct (digit b) as [nb |];
        try discriminate;
        repeat match type of Hd with
               | (if ?c then _ else _) = _ => destruct c eqn:?
               end;
        try discriminate; injection Hd as <-;
        repeat match goal with
               | E : (_ <=? _)%nat = true |- _ => apply Nat.leb_le in E
               | E : (_ && _)%bool = true |- _ => apply andb_true_iff in E as [? E]
               end; lia. }
  lia.
Qed.

Lemma date_ltb_irrefl (d : date) : date_ltb d d = false.
Proof.
  unfold date_ltb. rewrite !Nat.ltb_irrefl, !Nat.eqb_refl. reflexivity.
Qed.

(** X18. The dates [ensure_dates] returns are dates of the calendar, the
    end not before the start; a range of a single day is accepted. *)
Theorem ensure_dates_valid (args : namespace) (start end_ : date) :
  ensure_dates args = Ok (start, end_) ->
  valid_date start /\ valid_date end_ /\ date_ltb end_ start = false
  /\ (end_date args = start_date args -> end_ = start \/ given (start_date args) = None).
Proof.
  unfold ensure_dates. intros H.
  apply bind_ok in H as (s & Hs & H). apply bind_ok in H as (e & He & H).
  destruct (date_ltb e s) eqn:Hlt; [discriminate H |]. injection H as <- <-.
  assert (Hdefault : forall a dflt d,
             valid_date dflt ->
             match given a with Some t => strptime_ymd t | None => Ok dflt end = Ok d ->
             valid_date d).
  { intros a dflt d Hv Hd. destruct (given a) as [t |].
    - exact (strptime_valid t d Hd).
    - injection Hd as <-. exact Hv. }
  assert (Hstart : valid_date (mkdate 2025 10 1))
    by (unfold valid_date; cbn [year month day]; split; [lia |]; split; [lia |];
        vm_compute; lia).
  assert (Hend : valid_date (mkdate 2026 7 1))
    by (unfold valid_date; cbn [year month day]; split; [lia |]; split; [lia |];
        vm_compute; lia).
  split; [exact (Hdefault _ _ _ Hstart Hs) |].
  split; [exact (Hdefault _ _ _ Hend He) |].
  split; [exact Hlt |].
  intros Heq. rewrite Heq in He.
  destruct (given (start_date args)) as [t |]; [| right; reflexivity].
  left. rewrite Hs in He. injection He as <-. reflexivity.
Qed.

Lemma ensure_dates_valid_witness :
  valid_date (mkdate 2024 2 29) /\ valid_date (mkdate 2024 2 29)
  /\ date_ltb (mkdate 2024 2 29) (mkdate 2024 2 29) = false
  /\ (Some "2024-02-29" = Some "2024-02-29" ->
      mkdate 2024 2 29 = mkdate 2024 2 29 \/ given (Some "2024-02-29") = None).
Proof.
  apply (ensure_dates_valid
           (mkargs (Some "2024-02-29") (Some "2024-02-29") "out.csv" "music" false None None)
           (mkdate 2024 2 29) (mkdate 2024 2 29)).
  reflexivity.
Defined.










(* ===================================================================== *)
(** ** The artist fields of a row *)
(* ===================================================================== *)

Lemma first_seen_incl (names : list json) (x : json) :
  In x (first_seen names) -> In x names.
Proof.
  induction names as [| n rest IH]; simpl; [tauto |].
  intros [<- | H]; [left; reflexivity |].
  right. apply IH. apply filter_In in H. apply H.
Qed.

Lemma concat_head (sep s : string) (rest : list string) :
  exists t, String.concat sep (s :: rest) = (s ++ t)%string.
Proof.
  destruct rest as [| s' rest]; simpl.
  - exists EmptyString. clear. induction s as [| c s IH]; simpl; [reflexivity |].
    rewrite <- IH. reflexivity.
  - eexists. reflexivity.
Qed.

(** X20. The two artist fields of a row go together: either both are
    [None], or the primary artist is a non-empty string and the joined
    field is a string that starts with it.  No empty name and no value
    other than a string ever gets into them. *)
Theorem artist_fields_together (e : json) (r : row) :
  normalize_row e = Ok r ->
  (dict_get r "artist_primary" = JNull /\ dict_get r "artists" = JNull)
  \/ exists s t,
       nonempty s = true
       /\ dict_get r "artist_primary" = JStr s
       /\ dict_get r "artists" = JStr (s ++ t)%string.
Proof.
  intros H. pose proof (normalize_row_shape e r H) as Hw.
  destruct e as [| | | | | d]; try discriminate Hw.
  rewrite (normalize_row_well_shaped d Hw) in H. injection H as <-.
  simpl in Hw.
  repeat match type of Hw with _ && _ = true => apply andb_true_iff in Hw as [Hw ?] end.
  match goal with
  | Hatt : attractions_ok _ = true |- _ =>
      destruct (extract_artists_fields d Hw Hatt) as [_ Htext]
  end.
  assert (Htruthy : forall x, In x (artists_of d) -> truthy x = true).
  { intros x Hx. unfold artists_of in Hx. apply first_seen_incl in Hx.
    pose proof (collected_truthy
                  (items_of (py_or (dict_get (fields_of (py_or (dict_get d "_embedded")
                                                               (JObj []))) "attractions")
                                   (JArr [])))) as Hall.
    rewrite Forall_forall in Hall. exact (Hall x Hx). }
  unfold flat_row. simpl dict_get.
  destruct (artists_of d) as [| a arts]; [left; split; reflexivity |].
  right. simpl in Htext. apply andb_true_iff in Htext as [Ha _].
  destruct a as [| | | s | |]; try discriminate Ha.
  specialize (Htruthy (JStr s) (or_introl eq_refl)).
  destruct (concat_head "; " s (map text_of arts)) as [t Ht].
  exists s, t. split; [destruct s; [discriminate Htruthy | reflexivity] |].
  split; [reflexivity |]. unfold joined. simpl map. rewrite Ht. reflexivity.
Qed.

Lemma artist_fields_together_witness :
  (dict_get example_row "artist_primary" = JNull /\ dict_get example_row "artists" = JNull)
  \/ exists s t,
       nonempty s = true
       /\ dict_get example_row "artist_primary" = JStr s
       /\ dict_get example_row "artists" = JStr (s ++ t)%string.
Proof.
  apply (artist_fields_together example_event example_row). reflexivity.
Defined.
